(** * Aquitari knowledge graph: feedback mutator, diagnosis engine, auto-linker

    A shallow embedding of the three Python modules that share
    [brain_graph.json]:

    - [redis_feedback_graph_updater.py]  (module [Updater]),
    - [logic.py], on top of a NetworkX [DiGraph]  (modules [NetworkX], [Logic]),
    - [graph_auto_linker.py]  (module [AutoLinker]).

    The Python code works on the values [json.load] returns, so the data
    model is the JSON value itself ([Py.json]); Python's dynamic failures
    ([KeyError], [TypeError], ...) are results of the primitives, and the
    in-place mutation of the [graph] dictionary is explicit state passing:
    every statement that can raise says which graph is left behind.

    Conventions.  JSON numbers are integers.  A string is the sequence of
    its characters, each a code point below 256.  What the code prints or
    logs is left out, except the failures [apply_feedback] reports; a
    [print] whose f-string can raise is kept as the subscript that raises.
    The libraries are modelled by what they return: NetworkX by its
    dictionaries of nodes and successors, scikit-learn and
    sentence-transformers by the outcome of the threshold test of each
    pair, the webhook by the outcome of each call, [json.loads] and [repr]
    by functions the definitions take as arguments.

    The definitions come first (the program, then the vocabulary of the
    statements in [Spec]); the properties follow, module by module. *)

From Stdlib Require Import String Ascii List ZArith Bool Arith Lia.
From Stdlib Require Import DecimalString Relations.
Import ListNotations.
Open Scope string_scope.
Open Scope list_scope.

Set Warnings "-register-all".

(* ================================================================== *)
(** * Python values and primitives *)
(* ================================================================== *)

Module Py.

(** What [json.load] produces.  A [dict] is kept as an association list in
    insertion order; numbers are the integers (no field the graph code
    interprets is a float). *)
Inductive json : Type :=
| JNull
| JBool (b : bool)
| JNum (z : Z)
| JStr (s : string)
| JArr (items : list json)
| JObj (fields : list (string * json)).

Inductive exn : Type :=
| KeyError
| TypeError
| AttributeError
| ValueError
| FileNotFoundError
| JSONDecodeError.

Inductive result (A : Type) : Type :=
| Ok (a : A)
| Raise (e : exn).

Arguments Ok {A} a.
Arguments Raise {A} e.

Definition bind {A B} (r : result A) (k : A -> result B) : result B :=
  match r with
  | Ok a => k a
  | Raise e => Raise e
  end.

Declare Scope py_scope.
Delimit Scope py_scope with py.
Notation "x <- r ;; k" := (bind r (fun x => k))
  (at level 61, r at next level, right associativity) : py_scope.
Open Scope py_scope.

(** ** Dictionaries *)

Fixpoint lookup {A} (k : string) (d : list (string * A)) : option A :=
  match d with
  | [] => None
  | (k', v) :: d' => if String.eqb k k' then Some v else lookup k d'
  end.

(** [d[k] = v]: an existing key keeps its position, a new one goes last. *)
Fixpoint dict_set {A} (d : list (string * A)) (k : string) (v : A)
  : list (string * A) :=
  match d with
  | [] => [(k, v)]
  | (k', v') :: d' =>
      if String.eqb k k' then (k', v) :: d' else (k', v') :: dict_set d' k v
  end.

(** [d.update(other)] *)
Definition dict_update {A} (d other : list (string * A)) : list (string * A) :=
  fold_left (fun acc kv => dict_set acc (fst kv) (snd kv)) other d.

(** ** Equality ([==]) on JSON values

    [None] equals only [None]; [bool] and [int] compare as numbers
    ([True == 1]); lists compare element-wise; dictionaries compare as
    mappings, whatever the order of their keys. *)
Section All2.

Context {A : Type} (f : A -> A -> bool).

(** Same length, and [f] holds of the items position by position. *)
Fixpoint all2 (l1 l2 : list A) : bool :=
  match l1, l2 with
  | [], [] => true
  | x :: l1', y :: l2' => f x y && all2 l1' l2'
  | _, _ => false
  end.

End All2.

Fixpoint py_eq (a b : json) {struct a} : bool :=
  match a, b with
  | JNull, JNull => true
  | JBool x, JBool y => Bool.eqb x y
  | JBool x, JNum y => Z.eqb (Z.b2z x) y
  | JNum x, JBool y => Z.eqb x (Z.b2z y)
  | JNum x, JNum y => Z.eqb x y
  | JStr x, JStr y => String.eqb x y
  | JArr l1, JArr l2 => all2 py_eq l1 l2
  | JObj d1, JObj d2 =>
      Nat.eqb (length d1) (length d2) &&
      forallb (fun kv => match lookup (fst kv) d2 with
                         | Some v' => py_eq (snd kv) v'
                         | None => false
                         end) d1
  | _, _ => false
  end.

(** A value [json.load] can return: no dictionary holds a key twice. *)
Fixpoint distinct (keys : list string) : bool :=
  match keys with
  | [] => true
  | k :: rest => negb (existsb (String.eqb k) rest) && distinct rest
  end.

Fixpoint well_formed (v : json) : bool :=
  match v with
  | JArr l => forallb well_formed l
  | JObj d =>
      distinct (map fst d) && forallb (fun kv => well_formed (snd kv)) d
  | _ => true
  end.

(** [x in l] for a list [l]: [any(x is e or x == e for e in l)]. *)
Definition py_in (x : json) (l : list json) : bool :=
  existsb (py_eq x) l.

(** ** Subscript, [.get], [in], iteration *)

(** [v[k]] with a string key. *)
Definition getitem (v : json) (k : string) : result json :=
  match v with
  | JObj d =>
      match lookup k d with
      | Some x => Ok x
      | None => Raise KeyError
      end
  | _ => Raise TypeError
  end.

(** [v.get(k, dflt)] *)
Definition get_default (v : json) (k : string) (dflt : json) : result json :=
  match v with
  | JObj d =>
      match lookup k d with
      | Some x => Ok x
      | None => Ok dflt
      end
  | _ => Raise AttributeError
  end.

(** [v.get(k)] *)
Definition get (v : json) (k : string) : result json :=
  get_default v k JNull.

(** [v[k] = x] *)
Definition setitem (v : json) (k : string) (x : json) : result json :=
  match v with
  | JObj d => Ok (JObj (dict_set d k x))
  | _ => Raise TypeError
  end.

(** [for x in v]: the items of a list, the keys of a dictionary, the
    characters of a string, each as a string of length one. *)
Definition py_iter (v : json) : result (list json) :=
  match v with
  | JArr l => Ok l
  | JObj d => Ok (map (fun kv => JStr (fst kv)) d)
  | JStr s => Ok (map (fun c => JStr (String c EmptyString)) (list_ascii_of_string s))
  | _ => Raise TypeError
  end.

(** [k in v] for a string [k]. *)
Definition contains (k : string) (v : json) : result bool :=
  match v with
  | JObj d =>
      Ok (match lookup k d with Some _ => true | None => false end)
  | JArr l => Ok (py_in (JStr k) l)
  | JStr s =>
      Ok (match String.index 0 k s with Some _ => true | None => false end)
  | _ => Raise TypeError
  end.

(** [len(v)] *)
Definition len (v : json) : result nat :=
  l <- py_iter v ;; Ok (length l).

Definition isinstance_dict (v : json) : bool :=
  match v with JObj _ => true | _ => false end.

Definition isinstance_list (v : json) : bool :=
  match v with JArr _ => true | _ => false end.

(** [v.append(x)] *)
Definition append (v x : json) : result json :=
  match v with
  | JArr l => Ok (JArr (l ++ [x]))
  | _ => Raise AttributeError
  end.

(** [any(f(x) for x in l)]: stops at the first true item; an item that
    raises ends the scan with that exception. *)
Fixpoint py_any (f : json -> result bool) (l : list json) : result bool :=
  match l with
  | [] => Ok false
  | x :: l' =>
      b <- f x ;; if b then Ok true else py_any f l'
  end.

(** [[x for x in l if keep(x)]] *)
Fixpoint py_filter (keep : json -> result bool) (l : list json)
  : result (list json) :=
  match l with
  | [] => Ok []
  | x :: l' =>
      b <- keep x ;;
      rest <- py_filter keep l' ;;
      Ok (if b then x :: rest else rest)
  end.

(** [[f(x) for x in l]] *)
Fixpoint py_map {B} (f : json -> result B) (l : list json) : result (list B) :=
  match l with
  | [] => Ok []
  | x :: l' =>
      y <- f x ;;
      rest <- py_map f l' ;;
      Ok (y :: rest)
  end.

(** [a and b], where [b] is only evaluated when [a] is true. *)
Definition and_then (a : result bool) (b : result bool) : result bool :=
  x <- a ;; if x then b else Ok false.

(** ** [str] *)

Section Str.

(** [repr] of a list or of a dictionary, which [str] falls back to. *)
Variable py_repr : json -> string.

(** [str(v)], as an f-string field applies it. *)
Definition py_str (v : json) : string :=
  match v with
  | JNull => "None"
  | JBool true => "True"
  | JBool false => "False"
  | JNum z => NilZero.string_of_int (Z.to_int z)
  | JStr s => s
  | _ => py_repr v
  end.

End Str.

End Py.

Import Py.
Open Scope py_scope.

(* ================================================================== *)
(** * The persisted document *)
(* ================================================================== *)

Module Store.

(** What a process finds at the path of [brain_graph.json]: no file, a
    file [json.load] rejects with [JSONDecodeError], or a document. *)
Inductive file_state : Type :=
| FileMissing
| FileCorrupt
| FileJson (doc : json).

(** [os.path.exists(path)] *)
Definition exists_ (fs : file_state) : bool :=
  match fs with
  | FileMissing => false
  | _ => true
  end.

(** [with open(path, "r", encoding="utf-8") as f: json.load(f)] *)
Definition read_json (fs : file_state) : result json :=
  match fs with
  | FileMissing => Raise FileNotFoundError
  | FileCorrupt => Raise JSONDecodeError
  | FileJson doc => Ok doc
  end.

End Store.

Import Store.

(* ================================================================== *)
(** * redis_feedback_graph_updater.py *)
(* ================================================================== *)

Module Updater.

(** [{"nodes": [], "edges": []}] *)
Definition fresh_graph : json :=
  JObj [("nodes", JArr []); ("edges", JArr [])].

(** [load_graph], with its
    [except (FileNotFoundError, json.JSONDecodeError)]. *)
Definition load_graph (fs : file_state) : result json :=
  match read_json fs with
  | Ok doc => Ok doc
  | Raise FileNotFoundError => Ok fresh_graph
  | Raise JSONDecodeError => Ok fresh_graph
  | Raise e => Raise e
  end.

Definition save_graph (graph : json) : file_state := FileJson graph.

(** A statement that runs on the graph [graph]: when [r] raises, the
    exception leaves [apply_single_action] with [graph] as it is now. *)
Definition step {A} (graph : json) (r : result A)
  (k : A -> json * result unit) : json * result unit :=
  match r with
  | Ok a => k a
  | Raise e => (graph, Raise e)
  end.

Notation "x <-[ g ] r ;; k" := (step g r (fun x => k))
  (at level 61, r at next level, right associativity) : py_scope.

(** [e.get("source") == s and e.get("target") == t and e.get("relation") == r],
    the three right-hand sides being evaluated only when reached. *)
Definition triple_matches (e : json) (s t r : result json) : result bool :=
  and_then (a <- get e "source" ;; b <- s ;; Ok (py_eq a b))
    (and_then (a <- get e "target" ;; b <- t ;; Ok (py_eq a b))
       (a <- get e "relation" ;; b <- r ;; Ok (py_eq a b))).

(** The five branches of [apply_single_action], one definition each. *)

(** [action == "add_node"] *)
Definition on_add_node (graph feedback : json) : json * result unit :=
  node <-[graph] getitem feedback "node" ;;
  nodes <-[graph] getitem graph "nodes" ;;
  items <-[graph] py_iter nodes ;;
  dup <-[graph]
    py_any (fun n => a <- getitem n "id" ;; b <- getitem node "id" ;;
                     Ok (py_eq a b)) items ;;
  if dup then (graph, Ok tt)
  else
    nodes' <-[graph] append nodes node ;;
    graph' <-[graph] setitem graph "nodes" nodes' ;;
    _ <-[graph'] getitem node "id" ;;
    (graph', Ok tt).

(** [action == "add_edge"] *)
Definition on_add_edge (graph feedback : json) : json * result unit :=
  edge <-[graph] getitem feedback "edge" ;;
  nodes <-[graph] getitem graph "nodes" ;;
  items <-[graph] py_iter nodes ;;
  sources <-[graph] py_map (fun n => getitem n "id") items ;;
  s <-[graph] getitem edge "source" ;;
  has_s <-[graph] Ok (py_in s sources) ;;
  has_both <-[graph]
    (if has_s then t <- getitem edge "target" ;; Ok (py_in t sources)
     else Ok false) ;;
  if has_both then
    edges <-[graph] getitem graph "edges" ;;
    es <-[graph] py_iter edges ;;
    found <-[graph]
      py_any (fun e => triple_matches e (getitem edge "source")
                         (getitem edge "target") (getitem edge "relation")) es ;;
    if found then (graph, Ok tt)
    else
      edges' <-[graph] append edges edge ;;
      graph' <-[graph] setitem graph "edges" edges' ;;
      _ <-[graph'] getitem edge "relation" ;;
      (graph', Ok tt)
  else (graph, Ok tt).

(** The loop of [update_node] over the items of [graph["nodes"]]: the
    nodes updated before an exception stay updated. *)
Fixpoint update_loop (feedback : json) (items : list json)
  : list json * result unit :=
  match items with
  | [] => ([], Ok tt)
  | n :: rest =>
      match (a <- getitem n "id" ;;
             p <- getitem feedback "node" ;;
             b <- getitem p "id" ;;
             Ok (p, py_eq a b)) with
      | Raise e => (n :: rest, Raise e)
      | Ok (_, false) =>
          let (rest', r) := update_loop feedback rest in (n :: rest', r)
      | Ok (p, true) =>
          match n, p with
          | JObj d, JObj other =>
              let (rest', r) := update_loop feedback rest in
              (JObj (dict_update d other) :: rest', r)
          | _, _ => (n :: rest, Raise AttributeError)
          end
      end
  end.

(** [action == "update_node"] *)
Definition on_update_node (graph feedback : json) : json * result unit :=
  nodes <-[graph] getitem graph "nodes" ;;
  items <-[graph] py_iter nodes ;;
  let (items', r) := update_loop feedback items in
  match nodes with
  | JArr _ =>
      graph' <-[graph] setitem graph "nodes" (JArr items') ;;
      (graph', r)
  | _ => (graph, r)
  end.

(** [action == "delete_node"]: [graph["nodes"]] is replaced before
    [graph["edges"]] is read. *)
Definition on_delete_node (graph feedback : json) : json * result unit :=
  node <-[graph] getitem feedback "node" ;;
  node_id <-[graph] getitem node "id" ;;
  nodes <-[graph] getitem graph "nodes" ;;
  items <-[graph] py_iter nodes ;;
  kept <-[graph]
    py_filter (fun n => a <- getitem n "id" ;; Ok (negb (py_eq a node_id)))
      items ;;
  graph1 <-[graph] setitem graph "nodes" (JArr kept) ;;
  edges <-[graph1] getitem graph1 "edges" ;;
  es <-[graph1] py_iter edges ;;
  kept_es <-[graph1]
    py_filter (fun e =>
                 and_then (a <- get e "source" ;; Ok (negb (py_eq a node_id)))
                          (a <- get e "target" ;; Ok (negb (py_eq a node_id))))
      es ;;
  graph2 <-[graph1] setitem graph1 "edges" (JArr kept_es) ;;
  (graph2, Ok tt).

(** [action == "delete_edge"] *)
Definition on_delete_edge (graph feedback : json) : json * result unit :=
  edge <-[graph] getitem feedback "edge" ;;
  edges <-[graph] getitem graph "edges" ;;
  before <-[graph] len edges ;;
  es <-[graph] py_iter edges ;;
  kept <-[graph]
    py_filter (fun e =>
                 m <- triple_matches e (get edge "source") (get edge "target")
                        (get edge "relation") ;;
                 Ok (negb m)) es ;;
  graph' <-[graph] setitem graph "edges" (JArr kept) ;;
  if Nat.ltb (length kept) before then
    _ <-[graph'] getitem edge "source" ;;
    _ <-[graph'] getitem edge "target" ;;
    _ <-[graph'] getitem edge "relation" ;;
    (graph', Ok tt)
  else (graph', Ok tt).

(** [action == name and key in feedback] *)
Definition selects (action : json) (name key : string) (feedback : json)
  : result bool :=
  if py_eq action (JStr name) then contains key feedback else Ok false.

Definition apply_single_action (graph feedback : json) : json * result unit :=
  action <-[graph] get feedback "action" ;;
  b1 <-[graph] selects action "add_node" "node" feedback ;;
  if b1 then on_add_node graph feedback else
  b2 <-[graph] selects action "add_edge" "edge" feedback ;;
  if b2 then on_add_edge graph feedback else
  b3 <-[graph] selects action "update_node" "node" feedback ;;
  if b3 then on_update_node graph feedback else
  b4 <-[graph] selects action "delete_node" "node" feedback ;;
  if b4 then on_delete_node graph feedback else
  b5 <-[graph] selects action "delete_edge" "edge" feedback ;;
  if b5 then on_delete_edge graph feedback else
  (graph, Ok tt).

(** The lines [apply_feedback] prints for the actions that raised. *)
Definition failure_log : Type := list (json * exn).

(** The [for action_item in feedback["actions"]] loop with its
    [try]/[except Exception]. *)
Fixpoint apply_actions (graph : json) (actions : list json)
  : json * failure_log :=
  match actions with
  | [] => (graph, [])
  | action_item :: rest =>
      let (graph', r) := apply_single_action graph action_item in
      let (graph'', log) := apply_actions graph' rest in
      (graph'', match r with
                | Ok _ => log
                | Raise e => (action_item, e) :: log
                end)
  end.

Definition apply_feedback (graph feedback : json)
  : json * failure_log * result unit :=
  match (has <- contains "actions" feedback ;;
         if has then a <- getitem feedback "actions" ;;
                     Ok (if isinstance_list a then Some a else None)
         else Ok None) with
  | Raise e => (graph, [], Raise e)
  | Ok (Some (JArr actions)) =>
      let (graph', log) := apply_actions graph actions in
      (graph', log, Ok tt)
  | Ok _ =>
      let (graph', log) := apply_actions graph [feedback] in
      (graph', log, Ok tt)
  end.

End Updater.

(* ================================================================== *)
(** * networkx.DiGraph, as far as logic.py uses it *)
(* ================================================================== *)

Module NetworkX.

(** ** Node keys

    A node is any hashable object other than [None].  Of the JSON values
    these are the strings, the integers and the booleans, where [True] and
    [1] are one key ([False] and [0] likewise).  A dictionary keeps the
    object a key was first inserted with, so every entry carries it. *)
Inductive key : Type :=
| KStr (s : string)
| KNum (z : Z).

Definition key_eqb (a b : key) : bool :=
  match a, b with
  | KStr x, KStr y => String.eqb x y
  | KNum x, KNum y => Z.eqb x y
  | _, _ => false
  end.

(** [TypeError] for an unhashable value, [ValueError] for [None]
    ("None cannot be a node"). *)
Definition hash_key (v : json) : result key :=
  match v with
  | JStr s => Ok (KStr s)
  | JNum z => Ok (KNum z)
  | JBool b => Ok (KNum (Z.b2z b))
  | JNull => Raise ValueError
  | JArr _ => Raise TypeError
  | JObj _ => Raise TypeError
  end.

Fixpoint klookup {A} (k : key) (d : list (key * A)) : option A :=
  match d with
  | [] => None
  | (k', v) :: d' => if key_eqb k k' then Some v else klookup k d'
  end.

Fixpoint kset {A} (d : list (key * A)) (k : key) (v : A) : list (key * A) :=
  match d with
  | [] => [(k, v)]
  | (k', v') :: d' =>
      if key_eqb k k' then (k', v) :: d' else (k', v') :: kset d' k v
  end.

Definition kmem {A} (k : key) (d : list (key * A)) : bool :=
  match klookup k d with Some _ => true | None => false end.

(** ** The graph *)

(** An entry of [_succ[u]]: the successor object and the edge's data
    dictionary. *)
Record adj_entry : Type := mk_adj {
  adj_obj : json;
  adj_data : list (string * json)
}.

(** A node: the object it was added with, its attribute dictionary
    ([_node[n]]) and its successors in insertion order ([_succ[n]]). *)
Record node_entry : Type := mk_node {
  node_obj : json;
  node_attr : list (string * json);
  node_succ : list (key * adj_entry)
}.

Definition DiGraph : Type := list (key * node_entry).

Definition empty_graph : DiGraph := [].

(** [G.clear()] *)
Definition clear (G : DiGraph) : DiGraph := [].

Definition ensure_node (G : DiGraph) (k : key) (obj : json) : DiGraph :=
  match klookup k G with
  | Some _ => G
  | None => G ++ [(k, mk_node obj [] [])]
  end.

(** [G.add_node(n, **attr)] *)
Definition add_node (G : DiGraph) (n : json) (attr : list (string * json))
  : DiGraph * result unit :=
  match hash_key n with
  | Raise e => (G, Raise e)
  | Ok k =>
      match klookup k G with
      | None => (G ++ [(k, mk_node n (dict_update [] attr) [])], Ok tt)
      | Some e =>
          (kset G k (mk_node (node_obj e) (dict_update (node_attr e) attr)
                       (node_succ e)), Ok tt)
      end
  end.

(** [G.add_edge(u, v, **attr)]: both end points become nodes when they are
    not yet; [u] is added before [v] is looked at. *)
Definition add_edge (G : DiGraph) (u v : json) (attr : list (string * json))
  : DiGraph * result unit :=
  match hash_key u with
  | Raise e => (G, Raise e)
  | Ok ku =>
      let G1 := ensure_node G ku u in
      match hash_key v with
      | Raise e => (G1, Raise e)
      | Ok kv =>
          let G2 := ensure_node G1 kv v in
          match klookup ku G2 with
          | None => (G2, Ok tt)
          | Some eu =>
              let old := klookup kv (node_succ eu) in
              let datadict :=
                match old with Some a => adj_data a | None => [] end in
              let obj := match old with Some a => adj_obj a | None => v end in
              (kset G2 ku
                 (mk_node (node_obj eu) (node_attr eu)
                    (kset (node_succ eu) kv
                       (mk_adj obj (dict_update datadict attr)))),
               Ok tt)
          end
      end
  end.

(** [n in G], [G.has_node(n)] *)
Definition has_node (G : DiGraph) (k : key) : bool := kmem k G.

(** [G.successors(n)] ([G._succ[n]], in insertion order) *)
Definition successors (G : DiGraph) (k : key) : list (key * adj_entry) :=
  match klookup k G with
  | Some e => node_succ e
  | None => []
  end.

(** [G.edges[u, v]] *)
Definition edge_data (G : DiGraph) (u v : key) : list (string * json) :=
  match klookup v (successors G u) with
  | Some a => adj_data a
  | None => []
  end.

(** [len(G)] *)
Definition number_of_nodes (G : DiGraph) : nat := length G.

(** ** Breadth-first search

    [generic_bfs_edges]: the graph is explored level by level; [seen]
    holds the nodes reached so far; a child not yet seen is recorded,
    queued for the next level and its edge yielded.  (The early exit taken
    once [seen] holds every node yields nothing further and is left out.) *)

Definition key_in (k : key) (l : list key) : bool := existsb (key_eqb k) l.

(** A visited node: its key and the object the traversal yields for it. *)
Definition visit : Type := (key * json)%type.

Record bfs_state : Type := mk_bfs {
  bfs_seen : list key;
  bfs_next : list visit;
  bfs_out : list (visit * visit)
}.

(** [for child in children: if child not in seen: ...] *)
Fixpoint scan_children (parent : visit) (children : list (key * adj_entry))
  (st : bfs_state) : bfs_state :=
  match children with
  | [] => st
  | (c, a) :: rest =>
      if key_in c (bfs_seen st) then scan_children parent rest st
      else
        scan_children parent rest
          (mk_bfs (bfs_seen st ++ [c])
                  (bfs_next st ++ [(c, adj_obj a)])
                  (bfs_out st ++ [(parent, (c, adj_obj a))]))
  end.

(** [for parent, children in this_parents_children: ...] *)
Fixpoint scan_parents (G : DiGraph) (parents : list visit) (st : bfs_state)
  : bfs_state :=
  match parents with
  | [] => st
  | p :: rest =>
      scan_parents G rest (scan_children p (successors G (fst p)) st)
  end.

(** [while next_parents_children and depth < depth_limit: ...] *)
Fixpoint bfs_levels (G : DiGraph) (depth_limit : nat) (st : bfs_state)
  : bfs_state :=
  match depth_limit, bfs_next st with
  | S d, _ :: _ =>
      bfs_levels G d
        (scan_parents G (bfs_next st) (mk_bfs (bfs_seen st) [] (bfs_out st)))
  | _, _ => st
  end.

Definition bfs_start (source : visit) : bfs_state :=
  mk_bfs [fst source] [source] [].

(** [nx.bfs_edges(G, source, depth_limit=d)] *)
Definition bfs_edges (G : DiGraph) (source : visit) (depth_limit : nat)
  : list (visit * visit) :=
  bfs_out (bfs_levels G depth_limit (bfs_start source)).

(** [nx.has_path(G, source, target)]: whether [target] can be reached from
    [source].  NetworkX searches from both ends at once; the model searches
    forward from [source] until no new node turns up, which finds a path
    exactly when there is one.  [NodeNotFound] (here [KeyError]) when either
    node is not in the graph. *)
Definition has_path (G : DiGraph) (source target : key) : result bool :=
  if has_node G source && has_node G target then
    Ok (key_in target
          (bfs_seen (bfs_levels G (number_of_nodes G)
                       (bfs_start (source, JNull)))))
  else Raise KeyError.

End NetworkX.

(* ================================================================== *)
(** * logic.py: AquitariBrain *)
(* ================================================================== *)

Module Logic.

Import NetworkX.

(** The body of the [try] block of [_load_knowledge_graph], from
    [json.load]'s result on: the graph the statement that raised leaves
    behind, and whether one did. *)

Fixpoint load_nodes (G : DiGraph) (nodes : list json) : DiGraph * result unit :=
  match nodes with
  | [] => (G, Ok tt)
  | node :: rest =>
      match (i <- getitem node "id" ;;
             t <- get node "type" ;;
             d <- get node "description" ;;
             Ok (i, t, d)) with
      | Raise e => (G, Raise e)
      | Ok (i, t, d) =>
          match add_node G i [("type", t); ("description", d)] with
          | (G', Ok _) => load_nodes G' rest
          | (G', Raise e) => (G', Raise e)
          end
      end
  end.

Fixpoint load_edges (G : DiGraph) (edges : list json) : DiGraph * result unit :=
  match edges with
  | [] => (G, Ok tt)
  | edge :: rest =>
      match (s <- getitem edge "source" ;;
             t <- getitem edge "target" ;;
             r <- get edge "relation" ;;
             Ok (s, t, r)) with
      | Raise e => (G, Raise e)
      | Ok (s, t, r) =>
          match add_edge G s t [("relation", r)] with
          | (G', Ok _) => load_edges G' rest
          | (G', Raise e) => (G', Raise e)
          end
      end
  end.

(** The statements before [self.G.clear()]. *)
Definition read_header (data : json) : result unit :=
  _ <- get_default data "system_id" (JStr "unknown") ;;
  md <- get_default data "metadata" (JObj []) ;;
  _ <- get_default md "version" (JStr "0.0") ;;
  Ok tt.

Definition load_document (G : DiGraph) (data : json) : DiGraph * result unit :=
  match read_header data with
  | Raise e => (G, Raise e)
  | Ok _ =>
      let G0 := clear G in
      match (n <- get_default data "nodes" (JArr []) ;; py_iter n) with
      | Raise e => (G0, Raise e)
      | Ok nodes =>
          match load_nodes G0 nodes with
          | (G1, Raise e) => (G1, Raise e)
          | (G1, Ok _) =>
              match (e <- get_default data "edges" (JArr []) ;; py_iter e) with
              | Raise e => (G1, Raise e)
              | Ok edges => load_edges G1 edges
              end
          end
      end
  end.

(** [_load_knowledge_graph]: [self.G] after the call.  The method returns
    at once when the file does not exist, and its two [except] clauses log
    whatever the [try] block raises without raising again. *)
Definition _load_knowledge_graph (fs : file_state) (G : DiGraph) : DiGraph :=
  if negb (exists_ fs) then G
  else
    match read_json fs with
    | Raise _ => G
    | Ok data => fst (load_document G data)
    end.

(** [AquitariBrain.__init__]: [self.G = nx.DiGraph()], then the first load. *)
Definition init (fs : file_state) : DiGraph :=
  _load_knowledge_graph fs empty_graph.

(** What [diagnose] returns: the dictionary with the keys ["error"] and
    ["activates_safe_mode"], or the one with the four keys of a diagnosis. *)
Inductive diagnosis : Type :=
| UnknownState (error : string) (activates_safe_mode : bool)
| Diagnosis (current_state : string) (predicted_risks : list (json * json))
    (activates_safe_mode : bool) (reasoning_path : list string).

Definition activates_safe_mode (d : diagnosis) : bool :=
  match d with
  | UnknownState _ b => b
  | Diagnosis _ _ b _ => b
  end.

Definition predicted_risks (d : diagnosis) : list (json * json) :=
  match d with
  | UnknownState _ _ => []
  | Diagnosis _ r _ _ => r
  end.

Definition reasoning_path (d : diagnosis) : list string :=
  match d with
  | UnknownState _ _ => []
  | Diagnosis _ _ _ p => p
  end.

Section Reasoning.

Variable py_repr : json -> string.

(** [f"{u} --[{rel}]--> {v}"] *)
Definition trace_line (u rel v : json) : string :=
  (py_str py_repr u ++ " --[" ++ py_str py_repr rel ++ "]--> "
     ++ py_str py_repr v)%string.

(** [self.G.edges[u, v].get("relation", "leads to")] *)
Definition relation_or_default (G : DiGraph) (u v : key) : json :=
  match lookup "relation" (edge_data G u v) with
  | Some r => r
  | None => JStr "leads to"
  end.

Definition _explain_reasoning (G : DiGraph) (start_node : string)
  : list string :=
  map (fun uv : visit * visit =>
         let (u, v) := uv in
         trace_line (snd u) (relation_or_default G (fst u) (fst v)) (snd v))
      (bfs_edges G (KStr start_node, JStr start_node) 2).

(** The [try] block around the safe-mode test: any exception leaves the
    flag [False]. *)
Definition reaches_safe_mode (G : DiGraph) (state_id : string) : bool :=
  match (if has_node G (KStr "safe_mode")
         then has_path G (KStr state_id) (KStr "safe_mode")
         else Ok false) with
  | Ok b => b
  | Raise _ => false
  end.

Definition diagnose (G : DiGraph) (state_id : string) : diagnosis :=
  if negb (has_node G (KStr state_id)) then
    UnknownState
      ("State '" ++ state_id ++ "' is not mapped in the Knowledge Graph.")%string
      false
  else
    let risks :=
      map (fun ka : key * adj_entry =>
             (adj_obj (snd ka),
              match lookup "relation" (edge_data G (KStr state_id) (fst ka)) with
              | Some r => r
              | None => JNull
              end))
          (successors G (KStr state_id)) in
    Diagnosis state_id risks (reaches_safe_mode G state_id)
      (_explain_reasoning G state_id).

End Reasoning.

End Logic.

(* ================================================================== *)
(** * graph_auto_linker.py *)
(* ================================================================== *)

Module AutoLinker.

(** ** String helpers ([str.strip], [str.startswith], [str.lower])

    A character is its code point, below 256. *)

(** [c.isspace()] *)
Definition is_space (c : ascii) : bool :=
  let n := nat_of_ascii c in
  (((9 <=? n) && (n <=? 13)) || ((28 <=? n) && (n <=? 32))
   || (n =? 133) || (n =? 160))%nat.

Definition is_backtick (c : ascii) : bool := (nat_of_ascii c =? 96)%nat.

Fixpoint lstrip (p : ascii -> bool) (s : string) : string :=
  match s with
  | EmptyString => EmptyString
  | String c s' => if p c then lstrip p s' else s
  end.

Fixpoint rstrip (p : ascii -> bool) (s : string) : string :=
  match s with
  | EmptyString => EmptyString
  | String c s' =>
      match rstrip p s' with
      | EmptyString => if p c then EmptyString else String c EmptyString
      | r => String c r
      end
  end.

Definition strip (p : ascii -> bool) (s : string) : string :=
  rstrip p (lstrip p s).

(** [str.lower] on the ASCII letters.  (Below 256 no other character
    becomes an ASCII letter, and the code only tests whether the lowered
    text starts with "json".) *)
Definition lower_char (c : ascii) : ascii :=
  let n := nat_of_ascii c in
  if ((65 <=? n) && (n <=? 90))%nat then ascii_of_nat (n + 32) else c.

Fixpoint lower (s : string) : string :=
  match s with
  | EmptyString => EmptyString
  | String c s' => String (lower_char c) (lower s')
  end.

Fixpoint drop (n : nat) (s : string) : string :=
  match n, s with
  | S n', String _ s' => drop n' s'
  | _, _ => s
  end.

(** [clean_agent_output] *)
Definition clean_agent_output (text : string) : string :=
  let text := strip is_space text in
  let text := if String.prefix "```" text then strip is_backtick text
              else text in
  if String.prefix "json" (lower text) then strip is_space (drop 4 text)
  else text.

(** [load_graph]: no exception is handled here. *)
Definition load_graph (fs : file_state) : result json := read_json fs.

(** ** Text of a node *)

Section Linker.

Variable py_repr : json -> string.

(** [parts.extend(v)] for a list, [parts.append(str(v))] otherwise. *)
Definition attr_parts (v : json) : list json :=
  match v with
  | JArr l => l
  | _ => [JStr (py_str py_repr v)]
  end.

(** [" ".join(parts)]: every part has to be a string. *)
Fixpoint join (parts : list json) : result string :=
  match parts with
  | [] => Ok EmptyString
  | JStr s :: rest =>
      match rest with
      | [] => Ok s
      | _ :: _ => r <- join rest ;; Ok (s ++ " " ++ r)%string
      end
  | _ :: _ => Raise TypeError
  end.

(** [attrs.items()] *)
Definition items (v : json) : result (list (string * json)) :=
  match v with
  | JObj d => Ok d
  | _ => Raise AttributeError
  end.

Definition build_text_representation (node : json) : result string :=
  i <- get_default node "id" (JStr "") ;;
  d <- get_default node "description" (JStr "") ;;
  attrs <- get_default node "attributes" (JObj []) ;;
  kvs <- items attrs ;;
  join ([i; d] ++ flat_map (fun kv => attr_parts (snd kv)) kvs).

(** ** Existing edges *)

(** [edge_exists] *)
Definition edge_exists (edges : list json) (source target relation : json)
  : result bool :=
  py_any (fun e =>
            and_then (a <- get e "source" ;; Ok (py_eq a source))
              (and_then (a <- get e "target" ;; Ok (py_eq a target))
                 (a <- get e "relation" ;; Ok (py_eq a relation))))
         edges.

(** ** The relation classifier *)

(** What [requests.post] and [response.json()] do for one call: the
    request raises (unreachable host, timeout, no URL), the body is not
    JSON, or the body is the JSON value [data]. *)
Inductive response : Type :=
| PostRaised
| BodyNotJson
| Body (data : json).

(** [json.loads] on a string; [None] when it raises. *)
Variable json_loads : string -> option json.

Definition UNKNOWN_RELATION : json := JStr "UNKNOWN_RELATION".

(** The body of the inner [try] of cases 2 and 3, given the value of the
    ["output"] entry: the relation found, if any. *)
Definition parse_output (output : json) : result (option json) :=
  match output with
  | JStr text =>
      match json_loads (clean_agent_output text) with
      | None => Raise ValueError
      | Some inner =>
          has <- contains "relation" inner ;;
          if has then r <- getitem inner "relation" ;; Ok (Some r)
          else Ok None
      end
  | _ => Raise AttributeError
  end.

(** What a [try: ... except Exception: print(...)] block leaves. *)
Definition caught (r : result (option json)) : option json :=
  match r with
  | Ok o => o
  | Raise _ => None
  end.

Definition ask_agent_relation (resp : response) : json :=
  match resp with
  | PostRaised => UNKNOWN_RELATION
  | BodyNotJson => UNKNOWN_RELATION
  | Body data =>
      let outer : result json :=
        (* Case 1: agent returns clean JSON *)
        c1 <- (if isinstance_dict data then contains "relation" data
               else Ok false) ;;
        if c1 then getitem data "relation"
        else
          (* Case 2: agent wraps JSON inside "output" *)
          c2 <- (if isinstance_dict data then contains "output" data
                 else Ok false) ;;
          match (if c2 then caught (o <- getitem data "output" ;; parse_output o)
                 else None) with
          | Some r => Ok r
          | None =>
              (* Case 3: agent returns a list with "output" *)
              c3 <- (match data with
                     | JArr (first :: _) => contains "output" first
                     | _ => Ok false
                     end) ;;
              match (if c3 then
                       match data with
                       | JArr (first :: _) =>
                           caught (o <- getitem first "output" ;; parse_output o)
                       | _ => None
                       end
                     else None) with
              | Some r => Ok r
              | None => Ok UNKNOWN_RELATION
              end
          end
      in
      match outer with
      | Ok r => r
      | Raise _ => UNKNOWN_RELATION
      end
  end.

(** ** The two passes

    The similarity matrices come from scikit-learn and
    sentence-transformers.  A pass is given, as [similar i j], the outcome
    of the test [similarity_matrix[i][j] >= threshold] for every pair: the
    model starts where the library calls have returned. *)

(** [{"source": s, "target": t, "relation": r}] *)
Definition new_edge (s t r : json) : json :=
  JObj [("source", s); ("target", t); ("relation", r)].

(** The pairs [(i, j)] of [for i in range(n): for j in range(i + 1, n)]. *)
Definition pairs (n : nat) : list (nat * nat) :=
  flat_map (fun i => map (fun j => (i, j)) (seq (S i) (n - S i))) (seq 0 n).

(** The body of the inner loop for the pairs left, on the list object
    [edges]: the list it has become, and the exception that ended the
    loop, if any. *)
Fixpoint link_loop (similar : nat -> nat -> bool)
  (relation_of : nat -> nat -> json) (ids : list json) (edges : json)
  (todo : list (nat * nat)) : json * result unit :=
  match todo with
  | [] => (edges, Ok tt)
  | (i, j) :: rest =>
      if similar i j then
        let s := nth i ids JNull in
        let t := nth j ids JNull in
        let relation := relation_of i j in
        match (es <- py_iter edges ;; edge_exists es s t relation) with
        | Raise e => (edges, Raise e)
        | Ok true => link_loop similar relation_of ids edges rest
        | Ok false =>
            match append edges (new_edge s t relation) with
            | Raise e => (edges, Raise e)
            | Ok edges' => link_loop similar relation_of ids edges' rest
            end
        end
      else link_loop similar relation_of ids edges rest
  end.

(** What both passes do around the loop: read [nodes], make sure
    [graph["edges"]] exists, build [corpus] and [ids], run the loop and
    leave the grown list in the graph. *)
Definition link_pass (similar : nat -> nat -> bool)
  (relation_of : nat -> nat -> json) (graph : json) : json * result unit :=
  match get_default graph "nodes" (JArr []) with
  | Raise e => (graph, Raise e)
  | Ok nodes =>
      (* edges = graph.setdefault("edges", []) *)
      let graph1 :=
        match graph with
        | JObj d =>
            match lookup "edges" d with
            | Some _ => graph
            | None => JObj (dict_set d "edges" (JArr []))
            end
        | _ => graph
        end in
      match (edges <- getitem graph1 "edges" ;;
             ns <- py_iter nodes ;;
             _ <- py_map build_text_representation ns ;;
             ids <- py_map (fun node => getitem node "id") ns ;;
             Ok (edges, ns, ids)) with
      | Raise e => (graph1, Raise e)
      | Ok (edges, ns, ids) =>
          let (edges', r) :=
            link_loop similar relation_of ids edges (pairs (length ns)) in
          match setitem graph1 "edges" edges' with
          | Ok graph2 => (graph2, r)
          | Raise e => (graph1, Raise e)
          end
      end
  end.

(** [auto_link_tfidf] *)
Definition auto_link_tfidf (similar : nat -> nat -> bool) (graph : json)
  : json * result unit :=
  link_pass similar (fun _ _ => JStr "RELATED_TFIDF") graph.

(** [auto_link_embeddings]; [agent i j] is what the webhook call made for
    the pair [(i, j)] comes to. *)
Definition auto_link_embeddings (similar : nat -> nat -> bool)
  (agent : nat -> nat -> response) (graph : json) : json * result unit :=
  link_pass similar (fun i j => ask_agent_relation (agent i j)) graph.

End Linker.

End AutoLinker.

(* ================================================================== *)
(** * Vocabulary of the statements *)
(* ================================================================== *)

Module Spec.

Import NetworkX.

(** ** Feedback objects *)

(** The five actions and the payload key each one reads. *)
Definition payload_key : list (string * string) :=
  [("add_node", "node"); ("add_edge", "edge"); ("update_node", "node");
   ("delete_node", "node"); ("delete_edge", "edge")].

(** [feedback.get("action")] for a feedback object with these fields. *)
Definition action_of (fields : list (string * json)) : json :=
  match lookup "action" fields with
  | Some a => a
  | None => JNull
  end.

(** ** Batches *)

(** The graph an action leaves behind, whether it returns or raises. *)
Definition after_action (graph action_item : json) : json :=
  fst (Updater.apply_single_action graph action_item).

(** The actions of a batch that raise, each with its exception, when they
    are run one after the other from [graph]. *)
Fixpoint failures (graph : json) (actions : list json)
  : list (json * exn) :=
  match actions with
  | [] => []
  | a :: rest =>
      match snd (Updater.apply_single_action graph a) with
      | Ok _ => failures (after_action graph a) rest
      | Raise e => (a, e) :: failures (after_action graph a) rest
      end
  end.

(** ** Documents *)

(** [graph["nodes"]] and [graph["edges"]] when they are lists. *)
Definition doc_nodes (graph : json) : list json :=
  match getitem graph "nodes" with
  | Ok (JArr l) => l
  | _ => []
  end.

Definition doc_edges (graph : json) : list json :=
  match getitem graph "edges" with
  | Ok (JArr l) => l
  | _ => []
  end.

(** [n["id"]] succeeds. *)
Definition has_id (n : json) : bool :=
  match getitem n "id" with Ok _ => true | Raise _ => false end.

(** [n["id"]], for a node that has one. *)
Definition id_of (n : json) : json :=
  match getitem n "id" with Ok i => i | Raise _ => JNull end.

(** The ids of the nodes that have one. *)
Definition node_ids (nodes : list json) : list json :=
  map id_of (filter has_id nodes).

(** [e.get(k)] for an edge that is an object. *)
Definition get_or_none (e : json) (k : string) : json :=
  match get e k with Ok v => v | Raise _ => JNull end.

(** The edge is an object whose source and target are ids of nodes. *)
Definition endpoints_exist (ids : list json) (e : json) : bool :=
  isinstance_dict e
  && py_in (get_or_none e "source") ids
  && py_in (get_or_none e "target") ids.

(** The document holds a list of nodes and a list of edges, and every
    edge's source and target are ids of nodes of the document. *)
Definition referential_integrity (graph : json) : bool :=
  match getitem graph "nodes", getitem graph "edges" with
  | Ok (JArr ns), Ok (JArr es) => forallb (endpoints_exist (node_ids ns)) es
  | _, _ => false
  end.

(** The edge touches the node [x]. *)
Definition touches (x : json) (e : json) : bool :=
  py_eq (get_or_none e "source") x || py_eq (get_or_none e "target") x.

(** The id the payload of [delete_node] names. *)
Definition payload_id (feedback : json) : result json :=
  node <- getitem feedback "node" ;; getitem node "id".

(** The document [delete_node] leaves when it returns. *)
Definition without_node (d : list (string * json)) (ns es : list json)
  (x : json) : json :=
  JObj (dict_set
          (dict_set d "nodes"
             (JArr (filter (fun n => negb (py_eq (id_of n) x)) ns)))
          "edges" (JArr (filter (fun e => negb (touches x e)) es))).

Definition node (id : string) : json := JObj [("id", JStr id)].

Definition edge (s t r : string) : json :=
  JObj [("source", JStr s); ("target", JStr t); ("relation", JStr r)].

(** The document of the end-to-end scenario:
    low_rest --TRIGGERS--> executive_fatigue --TRIGGERS--> safe_mode. *)
Definition chain_doc : json :=
  JObj [("nodes", JArr [node "low_rest"; node "executive_fatigue";
                        node "safe_mode"]);
        ("edges", JArr [edge "low_rest" "executive_fatigue" "TRIGGERS";
                        edge "executive_fatigue" "safe_mode" "TRIGGERS"])].

(** ** Graphs of the diagnosis engine *)

(** [u -> v] is an edge of [G]. *)
Definition is_edge (G : DiGraph) (u v : key) : Prop :=
  In v (map fst (successors G u)).

(** A directed path, the empty one included (as for [nx.has_path]). *)
Definition path (G : DiGraph) : key -> key -> Prop :=
  clos_refl_trans key (is_edge G).

(** What [add_node] and [add_edge] keep true of a [DiGraph]: a successor's
    key occurs once under its source, is the key of the object stored with
    it, and is a node of the graph. *)
Definition adj_ok (G : DiGraph) (succ : list (key * adj_entry)) : Prop :=
  NoDup (map fst succ)
  /\ Forall (fun ka => hash_key (adj_obj (snd ka)) = Ok (fst ka)
                       /\ has_node G (fst ka) = true) succ.

Definition graph_ok (G : DiGraph) : Prop :=
  Forall (fun ke => adj_ok G (node_succ (snd ke))) G.

(** ** Breadth-first traversal bounded to depth 2, spelled out

    First the successors of the start node, in stored order; then, for each
    of them in turn, its successors that have not been met yet. *)

(** The children not met yet, in stored order. *)
Fixpoint discover (seen : list key) (children : list (key * adj_entry))
  : list visit :=
  match children with
  | [] => []
  | (c, a) :: rest =>
      if key_in c seen then discover seen rest
      else (c, adj_obj a) :: discover (seen ++ [c]) rest
  end.

(** The nodes a whole level discovers. *)
Fixpoint discover_level (G : DiGraph) (seen : list key) (parents : list visit)
  : list visit :=
  match parents with
  | [] => []
  | p :: rest =>
      let found := discover seen (successors G (fst p)) in
      found ++ discover_level G (seen ++ map fst found) rest
  end.

(** The edges a whole level yields. *)
Fixpoint level_edges (G : DiGraph) (seen : list key) (parents : list visit)
  : list (visit * visit) :=
  match parents with
  | [] => []
  | p :: rest =>
      let found := discover seen (successors G (fst p)) in
      map (pair p) found ++ level_edges G (seen ++ map fst found) rest
  end.

Definition bfs_depth2 (G : DiGraph) (start : visit) : list (visit * visit) :=
  let first := discover [fst start] (successors G (fst start)) in
  map (pair start) first
  ++ level_edges G (fst start :: map fst first) first.

(** The trace the specification describes: the edges of that traversal,
    each rendered as "A --[relation]--> B". *)
Definition depth2_trace (py_repr : json -> string) (G : DiGraph)
  (state_id : string) : list string :=
  map (fun uv : visit * visit =>
         Logic.trace_line py_repr (snd (fst uv))
           (Logic.relation_or_default G (fst (fst uv)) (fst (snd uv)))
           (snd (snd uv)))
      (bfs_depth2 G (KStr state_id, JStr state_id)).

(** What the search from [s] keeps true of its state: the nodes seen are
    distinct nodes of the graph that [s] reaches, [s] is one of them, the
    nodes queued for the next level have been seen, and every edge out of
    a seen node that is not queued leads to a seen node. *)
Definition bfs_inv (G : DiGraph) (s : key) (st : bfs_state) : Prop :=
  NoDup (bfs_seen st)
  /\ In s (bfs_seen st)
  /\ (forall k, In k (bfs_seen st) -> path G s k /\ has_node G k = true)
  /\ incl (map fst (bfs_next st)) (bfs_seen st)
  /\ (forall u v, In u (bfs_seen st) -> ~ In u (map fst (bfs_next st)) ->
        is_edge G u v -> In v (bfs_seen st)).

(** ** Classifier replies *)

Section Replies.

Variable json_loads : string -> option json.

(** First accepted shape: an object with a ["relation"] entry. *)
Definition relation_field (v : json) : option json :=
  match v with
  | JObj d => lookup "relation" d
  | _ => None
  end.

(** Second accepted shape: an object whose ["output"] entry is a string
    that, once cleaned, parses to a value of the first shape. *)
Definition output_relation (v : json) : option json :=
  match v with
  | JObj d =>
      match lookup "output" d with
      | Some (JStr text) =>
          match json_loads (AutoLinker.clean_agent_output text) with
          | Some inner => relation_field inner
          | None => None
          end
      | _ => None
      end
  | _ => None
  end.

(** The relation a reply yields through one of the three accepted shapes,
    the third being a list whose first item has the second shape. *)
Definition accepted_relation (data : json) : option json :=
  match relation_field data with
  | Some r => Some r
  | None =>
      match output_relation data with
      | Some r => Some r
      | None =>
          match data with
          | JArr (first :: _) => output_relation first
          | _ => None
          end
      end
  end.

(** The call raised, or its reply yields no relation. *)
Definition classifier_failed (resp : AutoLinker.response) : Prop :=
  match resp with
  | AutoLinker.Body data => accepted_relation data = None
  | _ => True
  end.

End Replies.

(** ** Documents the linker can process *)

Definition is_ok {A} (r : result A) : bool :=
  match r with Ok _ => true | Raise _ => false end.

(** The document is an object; its nodes, if any, are a list of nodes with
    an id whose text can be built; its edges, if any, are a list of
    objects. *)
Definition linkable (py_repr : json -> string) (graph : json) : bool :=
  match graph with
  | JObj d =>
      match lookup "nodes" d with
      | None => true
      | Some (JArr ns) =>
          forallb (fun n =>
                     is_ok (AutoLinker.build_text_representation py_repr n)
                     && has_id n) ns
      | Some _ => false
      end
      && match lookup "edges" d with
         | None => true
         | Some (JArr es) => forallb isinstance_dict es
         | Some _ => false
         end
  | _ => false
  end.

(** An edge a pass appended: the new edge of a similar pair. *)
Definition linked (similar : nat -> nat -> bool)
  (relation_of : nat -> nat -> json) (ids : list json)
  (todo : list (nat * nat)) (e : json) : Prop :=
  exists i j,
    In (i, j) todo /\ similar i j = true
    /\ e = AutoLinker.new_edge (nth i ids JNull) (nth j ids JNull)
             (relation_of i j).

(** The ids of the nodes, by position ([ids] in both passes). *)
Definition ids_of (graph : json) : list json := map id_of (doc_nodes graph).

(** Two nodes with a description and one edge. *)
Definition pair_doc : json :=
  JObj [("nodes",
         JArr [JObj [("id", JStr "low_rest");
                     ("description", JStr "too little sleep")];
               JObj [("id", JStr "executive_fatigue");
                     ("description", JStr "too little sleep")]]);
        ("edges",
         JArr [edge "low_rest" "executive_fatigue" "TRIGGERS"])].

End Spec.

(* ================================================================== *)
(** * Properties of the Python primitives *)
(* ================================================================== *)

Module PyFacts.

(** Induction on JSON values, with the items of a list and the values of
    a dictionary as induction hypotheses. *)
Lemma json_induction (P : json -> Prop) :
  P JNull ->
  (forall b, P (JBool b)) ->
  (forall z, P (JNum z)) ->
  (forall s, P (JStr s)) ->
  (forall l, Forall P l -> P (JArr l)) ->
  (forall d, Forall (fun kv => P (snd kv)) d -> P (JObj d)) ->
  forall v, P v.
Proof.
  intros HN HB HZ HS HA HO. fix IH 1. intros [| b | z | s | l | d].
  - exact HN.
  - apply HB.
  - apply HZ.
  - apply HS.
  - apply HA. induction l as [|x l IHl]; constructor; [apply IH | exact IHl].
  - apply HO. induction d as [|[k x] d IHd]; constructor;
      [apply IH | exact IHd].
Qed.

Lemma lookup_In {A} (k : string) (d : list (string * A)) (v : A) :
  lookup k d = Some v -> In (k, v) d.
Proof.
  induction d as [|[k' v'] d IH]; simpl; [discriminate|].
  destruct (String.eqb k k') eqn:E.
  - apply String.eqb_eq in E. subst. intros [= ->]. now left.
  - intros H. right. now apply IH.
Qed.

Lemma lookup_dict_set_same {A} (d : list (string * A)) (k : string) (v : A) :
  lookup k (dict_set d k v) = Some v.
Proof.
  induction d as [|[k' v'] d IH]; simpl.
  - now rewrite String.eqb_refl.
  - destruct (String.eqb k k') eqn:E; simpl; now rewrite E.
Qed.

Lemma lookup_dict_set_other {A} (d : list (string * A)) (k k' : string)
  (v : A) :
  k' <> k -> lookup k' (dict_set d k v) = lookup k' d.
Proof.
  intros NE. apply String.eqb_neq in NE.
  induction d as [|[k0 v0] d IH]; simpl.
  - now rewrite NE.
  - destruct (String.eqb k k0) eqn:E; simpl; [|now rewrite IH].
    apply String.eqb_eq in E. subst k0. now rewrite NE.
Qed.

Lemma distinct_cons (k : string) (keys : list string) :
  distinct (k :: keys) = true ->
  existsb (String.eqb k) keys = false /\ distinct keys = true.
Proof.
  simpl. intros H. apply andb_true_iff in H as [H1 H2].
  now apply negb_true_iff in H1.
Qed.

(** [d.update(other)] leaves under a key of [other] the value [other]
    holds for it. *)
Lemma lookup_dict_update {A} (other : list (string * A)) :
  forall (d : list (string * A)) (k : string) (v : A),
    distinct (map fst other) = true ->
    lookup k other = Some v ->
    lookup k (dict_update d other) = Some v.
Proof.
  unfold dict_update.
  induction other as [|[k0 v0] other IH]; intros d k v D L; simpl in *;
    [discriminate|].
  apply distinct_cons in D as [NI D].
  destruct (String.eqb k k0) eqn:E.
  - apply String.eqb_eq in E. subst k0. injection L as ->.
    clear IH D. revert d.
    assert (G : forall d, lookup k d = Some v ->
                lookup k (fold_left (fun acc kv => dict_set acc (fst kv) (snd kv))
                            other d) = Some v).
    { induction other as [|[k1 v1] other IH]; intros d L; simpl;
        [assumption|].
      simpl in NI. apply orb_false_iff in NI as [N1 N2].
      apply IH; [assumption|].
      rewrite lookup_dict_set_other; [assumption|].
      apply String.eqb_neq. exact N1. }
    intros d. apply G. apply lookup_dict_set_same.
  - now apply IH.
Qed.

(** ** Equality *)

Lemma py_eq_str_r (a : json) (s : string) :
  py_eq a (JStr s) = true -> a = JStr s.
Proof.
  destruct a; simpl; try discriminate.
  intros H. apply String.eqb_eq in H. now subst.
Qed.

Lemma py_eq_str_l (a : json) (s : string) :
  py_eq (JStr s) a = true -> a = JStr s.
Proof.
  destruct a; simpl; try discriminate.
  intros H. apply String.eqb_eq in H. now subst.
Qed.

Lemma py_eq_str_refl (s : string) : py_eq (JStr s) (JStr s) = true.
Proof. simpl. apply String.eqb_refl. Qed.

Lemma all2_trans {A} (f : A -> A -> bool) (l1 : list A) :
  Forall (fun x => forall y z, f x y = true -> f y z = true -> f x z = true)
    l1 ->
  forall l2 l3,
    all2 f l1 l2 = true -> all2 f l2 l3 = true -> all2 f l1 l3 = true.
Proof.
  induction 1 as [|x l1 Hx _ IH]; intros [|y l2] [|z l3]; simpl;
    try discriminate; auto.
  intros H1 H2. apply andb_true_iff in H1 as [E1 R1].
  apply andb_true_iff in H2 as [E2 R2].
  apply andb_true_iff. split; [now apply Hx with y | now apply IH with l2].
Qed.

(** [==] is transitive on JSON values. *)
Lemma py_eq_trans (a : json) :
  forall b c, py_eq a b = true -> py_eq b c = true -> py_eq a c = true.
Proof.
  induction a as [| x | x | x | l IH | d IH] using json_induction;
    intros b c; destruct b as [| y | y | y | l2 | d2]; simpl;
    try discriminate;
    destruct c as [| z | z | z | l3 | d3]; simpl; try discriminate;
    try tauto.
  - intros H1 H2. apply eqb_prop in H1, H2. subst. apply eqb_reflx.
  - intros H1 H2. apply eqb_prop in H1. now subst.
  - intros H1 H2. apply Z.eqb_eq in H1. apply Z.eqb_eq in H2.
    destruct x, z; simpl in *; try reflexivity; lia.
  - intros H1 H2. apply Z.eqb_eq in H1. apply Z.eqb_eq in H2.
    apply Z.eqb_eq. lia.
  - intros H1 H2. apply Z.eqb_eq in H1. apply eqb_prop in H2.
    subst. apply Z.eqb_refl.
  - intros H1 H2. apply Z.eqb_eq in H1. apply Z.eqb_eq in H2.
    apply Z.eqb_eq. lia.
  - intros H1 H2. apply Z.eqb_eq in H1. apply Z.eqb_eq in H2.
    apply Z.eqb_eq. lia.
  - intros H1 H2. apply Z.eqb_eq in H1. apply Z.eqb_eq in H2.
    apply Z.eqb_eq. lia.
  - intros H1 H2. apply String.eqb_eq in H1. apply String.eqb_eq in H2.
    subst. apply String.eqb_refl.
  - now apply all2_trans.
  - intros H1 H2. apply andb_true_iff in H1 as [L1 F1].
    apply andb_true_iff in H2 as [L2 F2].
    apply Nat.eqb_eq in L1, L2. apply andb_true_iff. split.
    + apply Nat.eqb_eq. congruence.
    + rewrite forallb_forall in *. rewrite Forall_forall in IH.
      intros [k v] I. specialize (F1 _ I). simpl in *.
      destruct (lookup k d2) as [v2|] eqn:E2; [|discriminate].
      apply lookup_In in E2. specialize (F2 _ E2). simpl in F2.
      destruct (lookup k d3) as [v3|]; [|discriminate].
      exact (IH _ I v2 v3 F1 F2).
Qed.

Lemma py_in_exists (x : json) (l : list json) :
  py_in x l = true <-> exists y, In y l /\ py_eq x y = true.
Proof. unfold py_in. apply existsb_exists. Qed.

Lemma py_in_app (x : json) (l l' : list json) :
  py_in x (l ++ l') = py_in x l || py_in x l'.
Proof. unfold py_in. apply existsb_app. Qed.

End PyFacts.

(* ================================================================== *)
(** * Properties of the feedback mutator *)
(* ================================================================== *)

Module UpdaterFacts.

Import Updater Spec PyFacts.

Lemma selects_false (fields : list (string * json)) (name key : string) :
  (action_of fields = JStr name -> lookup key fields = None) ->
  selects (action_of fields) name key (JObj fields) = Ok false.
Proof.
  intros H. unfold selects.
  destruct (py_eq (action_of fields) (JStr name)) eqn:E; [|reflexivity].
  apply py_eq_str_r in E. simpl. now rewrite (H E).
Qed.

(** C10.  A feedback object whose action is none of the five, or whose
    action is one of them but which lacks the payload key that action
    reads, leaves any graph whatsoever as it is, and
    [apply_single_action] returns normally. *)
Theorem apply_single_action_frame
  (graph : json) (fields : list (string * json)) :
  (forall name key, In (name, key) payload_key ->
     action_of fields = JStr name -> lookup key fields = None) ->
  apply_single_action graph (JObj fields) = (graph, Ok tt).
Proof.
  intros H. unfold apply_single_action.
  assert (G : get (JObj fields) "action" = Ok (action_of fields)).
  { unfold get, get_default, action_of.
    now destruct (lookup "action" fields). }
  assert (S : forall name key, In (name, key) payload_key ->
            selects (action_of fields) name key (JObj fields) = Ok false).
  { intros name key I. apply selects_false. now apply H. }
  rewrite G. unfold step.
  rewrite !S by (simpl; tauto). reflexivity.
Qed.

Lemma apply_single_action_frame_witness :
  apply_single_action Updater.fresh_graph
    (JObj [("action", JStr "rename_node"); ("node", JObj [("id", JStr "x")])])
  = (Updater.fresh_graph, Ok tt)
  /\ apply_single_action Updater.fresh_graph
       (JObj [("action", JStr "add_edge"); ("node", JObj [("id", JStr "x")])])
     = (Updater.fresh_graph, Ok tt).
Proof.
  split; apply apply_single_action_frame; intros name key I E;
    simpl in I;
    repeat (destruct I as [I | I];
            [injection I as <- <-; first [discriminate E | reflexivity] |]);
    contradiction.
Defined.

(** ** Referential integrity *)

Lemma referential_integrity_inv (graph : json) :
  referential_integrity graph = true ->
  exists d ns es,
    graph = JObj d
    /\ lookup "nodes" d = Some (JArr ns)
    /\ lookup "edges" d = Some (JArr es)
    /\ forallb (endpoints_exist (node_ids ns)) es = true.
Proof.
  unfold referential_integrity.
  destruct graph as [| | | | |d]; simpl; try discriminate.
  destruct (lookup "nodes" d) as [[| | | |ns|]|] eqn:N; try discriminate.
  destruct (lookup "edges" d) as [[| | | |es|]|] eqn:E; try discriminate.
  intros H. now exists d, ns, es.
Qed.

Lemma referential_integrity_intro (d : list (string * json))
  (ns es : list json) :
  lookup "nodes" d = Some (JArr ns) ->
  lookup "edges" d = Some (JArr es) ->
  forallb (endpoints_exist (node_ids ns)) es = true ->
  referential_integrity (JObj d) = true.
Proof.
  intros N E H. unfold referential_integrity. simpl. now rewrite N, E.
Qed.

Lemma endpoints_exist_mono (ids ids' : list json) (e : json) :
  (forall x, py_in x ids = true -> py_in x ids' = true) ->
  endpoints_exist ids e = true -> endpoints_exist ids' e = true.
Proof.
  intros M. unfold endpoints_exist. rewrite !andb_true_iff.
  intros [[H1 H2] H3]. auto.
Qed.

Lemma py_map_ids (ns : list json) :
  forall l,
    py_map (fun n => getitem n "id") ns = Ok l ->
    l = node_ids ns /\ forallb has_id ns = true.
Proof.
  unfold node_ids.
  induction ns as [|n ns IH]; simpl; intros l H.
  - injection H as <-. now split.
  - destruct (getitem n "id") as [i|] eqn:G; simpl in H; [|discriminate].
    destruct (py_map (fun n => getitem n "id") ns) as [l'|]; simpl in H;
      [|discriminate].
    injection H as <-. destruct (IH l' eq_refl) as [-> F].
    assert (Hn : has_id n = true) by (unfold has_id; now rewrite G).
    assert (In : id_of n = i) by (unfold id_of; now rewrite G).
    rewrite Hn. simpl. rewrite In. now split.
Qed.

Lemma node_ids_all (ns : list json) :
  forallb has_id ns = true -> node_ids ns = map id_of ns.
Proof.
  unfold node_ids. induction ns as [|n ns IH]; simpl; [reflexivity|].
  intros H. apply andb_true_iff in H as [H1 H2]. rewrite H1. simpl.
  now rewrite IH.
Qed.

(** What a comprehension with a filter leaves when no item raises. *)
Lemma py_filter_ok (keep : json -> result bool) (l : list json) :
  forall kept,
    py_filter keep l = Ok kept ->
    kept = filter (fun x => match keep x with Ok b => b | Raise _ => false end)
             l
    /\ Forall (fun x => exists b, keep x = Ok b) l.
Proof.
  induction l as [|x l IH]; simpl; intros kept H.
  - injection H as <-. now split.
  - destruct (keep x) as [b|] eqn:K; simpl in *; [|discriminate].
    destruct (py_filter keep l) as [rest|]; simpl in *; [|discriminate].
    injection H as <-. destruct (IH rest eq_refl) as [-> F].
    split; [now destruct b | constructor; eauto].
Qed.

Lemma py_filter_total (keep : json -> result bool) (l : list json) :
  Forall (fun x => exists b, keep x = Ok b) l ->
  exists kept, py_filter keep l = Ok kept.
Proof.
  induction 1 as [|x l [b K] _ [rest IH]]; simpl; [now eexists|].
  rewrite K, IH. simpl. now eexists.
Qed.

Lemma endpoints_exist_dict (ids : list json) (e : json) :
  endpoints_exist ids e = true -> exists d, e = JObj d.
Proof.
  unfold endpoints_exist. destruct e; simpl; try discriminate. eauto.
Qed.

Lemma get_dict (d : list (string * json)) (k : string) :
  get (JObj d) k = Ok (get_or_none (JObj d) k).
Proof.
  unfold get_or_none, get, get_default. now destruct (lookup k d).
Qed.

(** *** add_node *)

Lemma add_node_shape (d : list (string * json)) (ns : list json)
  (feedback : json) :
  lookup "nodes" d = Some (JArr ns) ->
  fst (on_add_node (JObj d) feedback) = JObj d
  \/ exists node,
       fst (on_add_node (JObj d) feedback)
       = JObj (dict_set d "nodes" (JArr (ns ++ [node]))).
Proof.
  intros N. unfold on_add_node, step.
  destruct (getitem feedback "node") as [node|]; [|now left].
  simpl. rewrite N. simpl.
  destruct (py_any _ ns) as [[|]|]; try now left.
  destruct (getitem node "id"); right; now exists node.
Qed.

Lemma node_ids_app (l l' : list json) :
  node_ids (l ++ l') = node_ids l ++ node_ids l'.
Proof. unfold node_ids. now rewrite filter_app, map_app. Qed.

Lemma referential_integrity_set_nodes (d : list (string * json))
  (ns ns' es : list json) :
  lookup "nodes" d = Some (JArr ns) ->
  lookup "edges" d = Some (JArr es) ->
  forallb (endpoints_exist (node_ids ns)) es = true ->
  (forall x, py_in x (node_ids ns) = true -> py_in x (node_ids ns') = true) ->
  referential_integrity (JObj (dict_set d "nodes" (JArr ns'))) = true.
Proof.
  intros N E H M.
  apply referential_integrity_intro with ns' es.
  - apply lookup_dict_set_same.
  - rewrite lookup_dict_set_other; [assumption | discriminate].
  - rewrite forallb_forall in *. intros e I.
    apply endpoints_exist_mono with (node_ids ns); auto.
Qed.

Lemma referential_integrity_set_edges (d : list (string * json))
  (ns es' : list json) :
  lookup "nodes" d = Some (JArr ns) ->
  forallb (endpoints_exist (node_ids ns)) es' = true ->
  referential_integrity (JObj (dict_set d "edges" (JArr es'))) = true.
Proof.
  intros N H.
  apply referential_integrity_intro with ns es'.
  - rewrite lookup_dict_set_other; [assumption | discriminate].
  - apply lookup_dict_set_same.
  - assumption.
Qed.

Lemma add_node_integrity (graph feedback : json) :
  referential_integrity graph = true ->
  referential_integrity (fst (on_add_node graph feedback)) = true.
Proof.
  intros RI.
  destruct (referential_integrity_inv _ RI) as (d & ns & es & -> & N & E & H).
  destruct (add_node_shape d ns feedback N) as [-> | [node ->]];
    [assumption|].
  apply referential_integrity_set_nodes with ns es; auto.
  intros x I. rewrite node_ids_app, py_in_app. now rewrite I.
Qed.

(** *** add_edge *)

Lemma add_edge_shape (d : list (string * json)) (ns es : list json)
  (feedback : json) :
  lookup "nodes" d = Some (JArr ns) ->
  lookup "edges" d = Some (JArr es) ->
  fst (on_add_edge (JObj d) feedback) = JObj d
  \/ exists edge,
       getitem feedback "edge" = Ok edge
       /\ endpoints_exist (node_ids ns) edge = true
       /\ fst (on_add_edge (JObj d) feedback)
          = JObj (dict_set d "edges" (JArr (es ++ [edge]))).
Proof.
  intros N E. unfold on_add_edge, step.
  destruct (getitem feedback "edge") as [edge|] eqn:F; [|now left].
  simpl. rewrite N. simpl.
  destruct (py_map _ ns) as [sources|] eqn:S; [|now left].
  apply py_map_ids in S as [-> _].
  destruct (getitem edge "source") as [s|] eqn:Es; [|now left].
  destruct (py_in s (node_ids ns)) eqn:Is; [|now left].
  destruct (getitem edge "target") as [t|] eqn:Et; [|now left]. simpl.
  destruct (py_in t (node_ids ns)) eqn:It; [|now left].
  rewrite E. simpl.
  destruct (py_any _ es) as [[|]|]; try now left.
  assert (X : endpoints_exist (node_ids ns) edge = true).
  { unfold endpoints_exist, get_or_none, get, get_default.
    destruct edge as [| | | | |fields]; try discriminate. simpl in *.
    destruct (lookup "source" fields); [|discriminate].
    destruct (lookup "target" fields); [|discriminate].
    injection Es as ->. injection Et as ->. now rewrite Is, It. }
  destruct (getitem edge "relation"); right; now exists edge.
Qed.

Lemma add_edge_integrity (graph feedback : json) :
  referential_integrity graph = true ->
  referential_integrity (fst (on_add_edge graph feedback)) = true.
Proof.
  intros RI.
  destruct (referential_integrity_inv _ RI) as (d & ns & es & -> & N & E & H).
  destruct (add_edge_shape d ns es feedback N E)
    as [-> | (edge & _ & X & ->)]; [assumption|].
  apply referential_integrity_set_edges with ns; [assumption|].
  rewrite forallb_app, H. simpl. now rewrite X.
Qed.

(** *** update_node *)

Lemma well_formed_getitem (v : json) (k : string) (x : json) :
  well_formed v = true -> getitem v k = Ok x -> well_formed x = true.
Proof.
  destruct v as [| | | | |d]; simpl; try discriminate.
  intros W G. apply andb_true_iff in W as [_ W].
  destruct (lookup k d) as [y|] eqn:L; [|discriminate].
  injection G as ->. apply lookup_In in L.
  rewrite forallb_forall in W. exact (W _ L).
Qed.

Lemma node_ids_cons (n : json) (l : list json) :
  node_ids (n :: l) = node_ids [n] ++ node_ids l.
Proof. exact (node_ids_app [n] l). Qed.

Lemma node_ids_single (n a : json) :
  getitem n "id" = Ok a -> node_ids [n] = [a].
Proof.
  intros G. unfold node_ids, has_id, id_of. simpl. now rewrite G; simpl; rewrite G.
Qed.

Lemma update_loop_ids (feedback : json) (ns : list json) :
  well_formed feedback = true ->
  forall x,
    py_in x (node_ids ns) = true ->
    py_in x (node_ids (fst (update_loop feedback ns))) = true.
Proof.
  intros W. induction ns as [|n rest IH]; intros x I; simpl; [assumption|].
  destruct (getitem n "id") as [a|] eqn:Ga; simpl; [|assumption].
  destruct (getitem feedback "node") as [p|] eqn:Gp; simpl; [|assumption].
  destruct (getitem p "id") as [b|] eqn:Gb; simpl; [|assumption].
  rewrite node_ids_cons, py_in_app in I.
  destruct (py_eq a b) eqn:E.
  - destruct n as [| | | | |d0]; try discriminate.
    destruct p as [| | | | |other]; try discriminate.
    destruct (update_loop feedback rest) as [rest' r] eqn:U.
    cbn [fst] in *.
    rewrite node_ids_cons, py_in_app.
    assert (L : lookup "id" (dict_update d0 other) = Some b).
    { apply lookup_dict_update.
      - apply (well_formed_getitem _ _ _ W) in Gp. simpl in Gp.
        now apply andb_true_iff in Gp as [Gp _].
      - simpl in Gb.
        destruct (lookup "id" other); [now injection Gb as -> | discriminate]. }
    apply orb_true_iff in I as [I | I]; [|rewrite (IH _ I); apply orb_true_r].
    apply orb_true_iff. left.
    rewrite (node_ids_single _ a Ga) in I.
    rewrite (node_ids_single (JObj (dict_update d0 other)) b)
      by (simpl; now rewrite L).
    unfold py_in in *. simpl in *. rewrite orb_false_r in *.
    now apply py_eq_trans with a.
  - destruct (update_loop feedback rest) as [rest' r] eqn:U.
    cbn [fst] in *.
    rewrite node_ids_cons, py_in_app.
    apply orb_true_iff in I as [I | I]; [now rewrite I|].
    rewrite (IH _ I). apply orb_true_r.
Qed.

Lemma update_node_shape (d : list (string * json)) (ns : list json)
  (feedback : json) :
  lookup "nodes" d = Some (JArr ns) ->
  fst (on_update_node (JObj d) feedback)
  = JObj (dict_set d "nodes" (JArr (fst (update_loop feedback ns)))).
Proof.
  intros N. unfold on_update_node, step. simpl. rewrite N. simpl.
  now destruct (update_loop feedback ns).
Qed.

Lemma update_node_integrity (graph feedback : json) :
  well_formed feedback = true ->
  referential_integrity graph = true ->
  referential_integrity (fst (on_update_node graph feedback)) = true.
Proof.
  intros W RI.
  destruct (referential_integrity_inv _ RI) as (d & ns & es & -> & N & E & H).
  rewrite (update_node_shape d ns feedback N).
  apply referential_integrity_set_nodes with ns es; auto.
  now apply update_loop_ids.
Qed.

(** *** delete_node *)

Lemma py_filter_pure (keep : json -> result bool) (f : json -> bool)
  (l : list json) :
  (forall x, In x l -> keep x = Ok (f x)) ->
  py_filter keep l = Ok (filter f l).
Proof.
  induction l as [|x l IH]; simpl; intros H; [reflexivity|].
  rewrite (H x) by now left. simpl. rewrite IH by auto. simpl.
  now destruct (f x).
Qed.

Lemma delete_node_ok (d : list (string * json)) (ns es : list json)
  (feedback x : json) :
  lookup "nodes" d = Some (JArr ns) ->
  lookup "edges" d = Some (JArr es) ->
  forallb isinstance_dict es = true ->
  payload_id feedback = Ok x ->
  forallb has_id ns = true ->
  on_delete_node (JObj d) feedback = (without_node d ns es x, Ok tt).
Proof.
  intros N E D P F. unfold on_delete_node, step. unfold payload_id in P.
  destruct (getitem feedback "node") as [node|]; [|discriminate].
  simpl in P. rewrite P. simpl. rewrite N. simpl.
  rewrite (py_filter_pure _ (fun n => negb (py_eq (id_of n) x))).
  2:{ intros n I. rewrite forallb_forall in F. specialize (F _ I).
      unfold has_id, id_of in *. now destruct (getitem n "id"). }
  rewrite lookup_dict_set_other by discriminate. rewrite E. simpl.
  rewrite (py_filter_pure _ (fun e => negb (touches x e))).
  2:{ intros e I. rewrite forallb_forall in D. specialize (D _ I).
      destruct e as [| | | | |fields]; try discriminate.
      unfold touches. rewrite !get_dict. simpl.
      destruct (py_eq (get_or_none (JObj fields) "source") x); simpl;
        [reflexivity|].
      now destruct (py_eq (get_or_none (JObj fields) "target") x). }
  reflexivity.
Qed.

Lemma delete_node_fail (d : list (string * json)) (ns : list json)
  (feedback : json) :
  lookup "nodes" d = Some (JArr ns) ->
  (forall x, payload_id feedback <> Ok x) \/ forallb has_id ns = false ->
  fst (on_delete_node (JObj d) feedback) = JObj d.
Proof.
  intros N H. unfold on_delete_node, step. unfold payload_id in H.
  destruct (getitem feedback "node") as [node|]; [|reflexivity].
  simpl in H. destruct (getitem node "id") as [x|]; [|reflexivity].
  simpl. rewrite N. simpl.
  destruct H as [H | H]; [now destruct (H x)|].
  destruct (py_filter _ ns) as [kept|] eqn:K; [|reflexivity].
  apply py_filter_ok in K as [_ K]. exfalso.
  assert (T : forallb has_id ns = true).
  { rewrite forallb_forall. rewrite Forall_forall in K. intros n I.
    destruct (K _ I) as [b B]. unfold has_id.
    now destruct (getitem n "id"). }
  congruence.
Qed.

Lemma forallb_endpoints_dict (ids : list json) (es : list json) :
  forallb (endpoints_exist ids) es = true ->
  forallb isinstance_dict es = true.
Proof.
  rewrite !forallb_forall. intros H e I. specialize (H _ I).
  unfold endpoints_exist in H. now destruct (isinstance_dict e).
Qed.

(** An id that some node carries and that is not the deleted one is
    still carried by a node afterwards. *)
Lemma py_in_survives (ns : list json) (x v : json) :
  forallb has_id ns = true ->
  py_in v (node_ids ns) = true ->
  py_eq v x = false ->
  py_in v (node_ids (filter (fun n => negb (py_eq (id_of n) x)) ns)) = true.
Proof.
  intros F I NE.
  rewrite node_ids_all in I by assumption.
  apply py_in_exists in I as (a & Ia & E).
  apply in_map_iff in Ia as (n & <- & In).
  apply py_in_exists. exists (id_of n). split; [|assumption].
  unfold node_ids. apply in_map. apply filter_In. split.
  - apply filter_In. split; [assumption|].
    destruct (py_eq (id_of n) x) eqn:Q; [|reflexivity].
    rewrite (py_eq_trans _ _ _ E Q) in NE. discriminate.
  - rewrite forallb_forall in F. now apply F.
Qed.

Lemma without_node_integrity (d : list (string * json)) (ns es : list json)
  (x : json) :
  lookup "nodes" d = Some (JArr ns) ->
  forallb has_id ns = true ->
  forallb (endpoints_exist (node_ids ns)) es = true ->
  referential_integrity (without_node d ns es x) = true.
Proof.
  intros N F H. unfold without_node.
  apply referential_integrity_set_edges
    with (filter (fun n => negb (py_eq (id_of n) x)) ns).
  - apply lookup_dict_set_same.
  - rewrite forallb_forall in H. rewrite forallb_forall. intros e I.
    apply filter_In in I as [I T]. specialize (H _ I).
    unfold endpoints_exist in *.
    apply andb_true_iff in H as [H Ht]. apply andb_true_iff in H as [Hd Hs].
    unfold touches in T. apply negb_true_iff, orb_false_iff in T as [Ts Tt].
    rewrite Hd. simpl.
    rewrite (py_in_survives ns x _ F Hs Ts).
    now rewrite (py_in_survives ns x _ F Ht Tt).
Qed.

Lemma delete_node_integrity (graph feedback : json) :
  referential_integrity graph = true ->
  referential_integrity (fst (on_delete_node graph feedback)) = true.
Proof.
  intros RI.
  destruct (referential_integrity_inv _ RI) as (d & ns & es & -> & N & E & H).
  destruct (payload_id feedback) as [x|] eqn:P.
  - destruct (forallb has_id ns) eqn:F.
    + rewrite (delete_node_ok d ns es feedback x N E
                 (forallb_endpoints_dict _ _ H) P F).
      now apply without_node_integrity.
    + rewrite (delete_node_fail d ns feedback N); auto.
  - rewrite (delete_node_fail d ns feedback N); auto.
    left. congruence.
Qed.

(** *** delete_edge *)

Lemma delete_edge_shape (d : list (string * json)) (es : list json)
  (feedback : json) :
  lookup "edges" d = Some (JArr es) ->
  fst (on_delete_edge (JObj d) feedback) = JObj d
  \/ exists kept,
       incl kept es
       /\ fst (on_delete_edge (JObj d) feedback)
          = JObj (dict_set d "edges" (JArr kept)).
Proof.
  intros E. unfold on_delete_edge, step.
  destruct (getitem feedback "edge") as [edge|]; [|now left].
  simpl. rewrite E. simpl.
  destruct (py_filter _ es) as [kept|] eqn:K; [|now left].
  apply py_filter_ok in K as [K _].
  assert (I : incl kept es).
  { rewrite K. intros e Ie. now apply filter_In in Ie. }
  right. exists kept. split; [assumption|].
  destruct (Nat.ltb (length kept) (length es)); [|reflexivity].
  destruct (getitem edge "source"); [|reflexivity].
  destruct (getitem edge "target"); [|reflexivity].
  now destruct (getitem edge "relation").
Qed.

Lemma delete_edge_integrity (graph feedback : json) :
  referential_integrity graph = true ->
  referential_integrity (fst (on_delete_edge graph feedback)) = true.
Proof.
  intros RI.
  destruct (referential_integrity_inv _ RI) as (d & ns & es & -> & N & E & H).
  destruct (delete_edge_shape d es feedback E) as [-> | (kept & I & ->)];
    [assumption|].
  apply referential_integrity_set_edges with ns; [assumption|].
  rewrite forallb_forall in *. auto.
Qed.

(** *** Any action *)

Lemma apply_single_action_dispatch (graph feedback : json) :
  after_action graph feedback = graph
  \/ apply_single_action graph feedback = on_add_node graph feedback
  \/ apply_single_action graph feedback = on_add_edge graph feedback
  \/ apply_single_action graph feedback = on_update_node graph feedback
  \/ apply_single_action graph feedback = on_delete_node graph feedback
  \/ apply_single_action graph feedback = on_delete_edge graph feedback.
Proof.
  unfold after_action, apply_single_action, step.
  destruct (get feedback "action") as [action|]; [|now left].
  destruct (selects action "add_node" "node" feedback) as [[|]|];
    [tauto | | now left].
  destruct (selects action "add_edge" "edge" feedback) as [[|]|];
    [tauto | | now left].
  destruct (selects action "update_node" "node" feedback) as [[|]|];
    [tauto | | now left].
  destruct (selects action "delete_node" "node" feedback) as [[|]|];
    [tauto | | now left].
  destruct (selects action "delete_edge" "edge" feedback) as [[|]|];
    [tauto | now left | now left].
Qed.

Lemma apply_single_action_integrity (graph feedback : json) :
  well_formed feedback = true ->
  referential_integrity graph = true ->
  referential_integrity (after_action graph feedback) = true.
Proof.
  intros W RI.
  destruct (apply_single_action_dispatch graph feedback)
    as [E | [E | [E | [E | [E | E]]]]];
    unfold after_action in *; rewrite E; auto using add_node_integrity,
      add_edge_integrity, update_node_integrity, delete_node_integrity,
      delete_edge_integrity.
Qed.

Lemma add_edge_selected (graph feedback : json) :
  get feedback "action" = Ok (JStr "add_edge") ->
  after_action graph feedback = fst (on_add_edge graph feedback).
Proof.
  intros A. unfold after_action, apply_single_action, step. rewrite A.
  destruct feedback as [| | | | |fields]; try discriminate. simpl.
  destruct (lookup "edge" fields) eqn:L; [reflexivity|].
  unfold on_add_edge, step. simpl. now rewrite L.
Qed.

Lemma delete_node_selected (graph feedback x : json) :
  get feedback "action" = Ok (JStr "delete_node") ->
  payload_id feedback = Ok x ->
  apply_single_action graph feedback = on_delete_node graph feedback.
Proof.
  intros A P. unfold apply_single_action, step. rewrite A.
  destruct feedback as [| | | | |fields]; try discriminate. simpl.
  unfold payload_id in P. simpl in P.
  destruct (lookup "node" fields); [reflexivity | discriminate].
Qed.

Lemma doc_nodes_set_edges (d : list (string * json)) (v : json) :
  doc_nodes (JObj (dict_set d "edges" v)) = doc_nodes (JObj d).
Proof.
  unfold doc_nodes. simpl.
  now rewrite lookup_dict_set_other by discriminate.
Qed.

Lemma doc_edges_set_edges (d : list (string * json)) (es : list json) :
  doc_edges (JObj (dict_set d "edges" (JArr es))) = es.
Proof. unfold doc_edges. simpl. now rewrite lookup_dict_set_same. Qed.

(** C4.  Starting from a document whose edges all have a source and a
    target that are ids of its nodes, every feedback action leaves such a
    document, whether it returns or raises.  [add_edge] leaves the nodes
    as they are and appends the edge only when both its end points are ids
    of nodes.  [delete_node] on [x], in a document whose nodes all have an
    id, returns and leaves exactly the nodes whose id differs from [x] and
    the edges that have neither [x] as source nor [x] as target. *)
Theorem feedback_keeps_referential_integrity (graph feedback : json) :
  well_formed feedback = true ->
  referential_integrity graph = true ->
  referential_integrity (after_action graph feedback) = true
  /\ (get feedback "action" = Ok (JStr "add_edge") ->
      doc_nodes (after_action graph feedback) = doc_nodes graph
      /\ (doc_edges (after_action graph feedback) = doc_edges graph
          \/ exists edge,
               getitem feedback "edge" = Ok edge
               /\ endpoints_exist (node_ids (doc_nodes graph)) edge = true
               /\ doc_edges (after_action graph feedback)
                  = doc_edges graph ++ [edge]))
  /\ (forall x,
        get feedback "action" = Ok (JStr "delete_node") ->
        payload_id feedback = Ok x ->
        forallb has_id (doc_nodes graph) = true ->
        snd (apply_single_action graph feedback) = Ok tt
        /\ doc_nodes (after_action graph feedback)
           = filter (fun n => negb (py_eq (id_of n) x)) (doc_nodes graph)
        /\ doc_edges (after_action graph feedback)
           = filter (fun e => negb (touches x e)) (doc_edges graph)).
Proof.
  intros W RI. split; [now apply apply_single_action_integrity|].
  destruct (referential_integrity_inv _ RI) as (d & ns & es & -> & N & E & H).
  assert (Dn : doc_nodes (JObj d) = ns) by (unfold doc_nodes; simpl; now rewrite N).
  assert (De : doc_edges (JObj d) = es) by (unfold doc_edges; simpl; now rewrite E).
  split.
  - intros A. rewrite (add_edge_selected _ _ A).
    destruct (add_edge_shape d ns es feedback N E)
      as [-> | (edge & G & X & ->)].
    + split; [reflexivity | now left].
    + rewrite doc_nodes_set_edges, doc_edges_set_edges, Dn, De.
      split; [reflexivity|]. right. now exists edge.
  - intros x A P F. rewrite Dn in F. unfold after_action.
    rewrite (delete_node_selected _ _ x A P).
    rewrite (delete_node_ok d ns es feedback x N E
               (forallb_endpoints_dict _ _ H) P F).
    unfold without_node. simpl.
    rewrite doc_nodes_set_edges, doc_edges_set_edges, Dn, De.
    split; [reflexivity|]. split; [|reflexivity].
    unfold doc_nodes. simpl. now rewrite lookup_dict_set_same.
Qed.

Lemma feedback_keeps_referential_integrity_witness :
  referential_integrity
    (after_action chain_doc
       (JObj [("action", JStr "delete_node");
              ("node", node "executive_fatigue")])) = true
  /\ doc_edges
       (after_action chain_doc
          (JObj [("action", JStr "delete_node");
                 ("node", node "executive_fatigue")])) = [].
Proof.
  destruct (feedback_keeps_referential_integrity chain_doc
              (JObj [("action", JStr "delete_node");
                     ("node", node "executive_fatigue")])
              eq_refl eq_refl) as (H1 & _ & H3).
  split; [exact H1|].
  destruct (H3 (JStr "executive_fatigue") eq_refl eq_refl eq_refl)
    as (_ & _ & ->).
  reflexivity.
Defined.

(** *** Inserting an edge, and replaying the command *)

Lemma py_any_snoc (f : json -> result bool) (l : list json) (x : json) :
  py_any f l = Ok false -> py_any f (l ++ [x]) = py_any f [x].
Proof.
  induction l as [|y l IH]; simpl; intros H; [reflexivity|].
  destruct (f y) as [[|]|]; simpl in *; try discriminate. now apply IH.
Qed.




Lemma apply_actions_spec (actions : list json) :
  forall graph,
    apply_actions graph actions
    = (fold_left after_action actions graph, failures graph actions).
Proof.
  induction actions as [|a rest IH]; intros graph; simpl; [reflexivity|].
  unfold after_action at 2 3 4.
  destruct (apply_single_action graph a) as [graph' [u|e]]; simpl;
    now rewrite IH.
Qed.

(** C8.  A message that carries a list of actions never makes
    [apply_feedback] raise: every action of the list is attempted, in
    order, on the graph its predecessors left (so what the actions that
    returned did is kept), and the actions that raised are exactly the ones
    logged. *)
Theorem apply_feedback_batch
  (graph : json) (fields : list (string * json)) (actions : list json) :
  lookup "actions" fields = Some (JArr actions) ->
  apply_feedback graph (JObj fields)
  = (fold_left after_action actions graph, failures graph actions, Ok tt).
Proof.
  intros L. unfold apply_feedback. simpl. rewrite L. simpl.
  now rewrite apply_actions_spec.
Qed.

Lemma apply_feedback_batch_witness :
  apply_feedback chain_doc
    (JObj [("actions",
            JArr [JObj [("action", JStr "add_node"); ("node", JNum 3)];
                  JObj [("action", JStr "add_node"); ("node", node "calm")]])])
  = (fold_left after_action
       [JObj [("action", JStr "add_node"); ("node", JNum 3)];
        JObj [("action", JStr "add_node"); ("node", node "calm")]]
       chain_doc,
     failures chain_doc
       [JObj [("action", JStr "add_node"); ("node", JNum 3)];
        JObj [("action", JStr "add_node"); ("node", node "calm")]],
     Ok tt).
Proof.
  apply (apply_feedback_batch chain_doc
           [("actions",
             JArr [JObj [("action", JStr "add_node"); ("node", JNum 3)];
                   JObj [("action", JStr "add_node"); ("node", node "calm")]])]).
  reflexivity.
Defined.

End UpdaterFacts.

(* ================================================================== *)
(** * Properties of the graph library model *)
(* ================================================================== *)

Module NetworkXFacts.

Import NetworkX Spec.

Lemma key_eqb_eq (a b : key) : key_eqb a b = true <-> a = b.
Proof.
  destruct a, b; simpl; split; intros H; try discriminate; try congruence.
  - apply String.eqb_eq in H. now subst.
  - injection H as ->. apply String.eqb_refl.
  - apply Z.eqb_eq in H. now subst.
  - injection H as ->. apply Z.eqb_refl.
Qed.

Lemma key_eqb_refl (a : key) : key_eqb a a = true.
Proof. now apply key_eqb_eq. Qed.

Lemma key_eqb_neq (a b : key) : key_eqb a b = false <-> a <> b.
Proof.
  split.
  - intros H E. apply key_eqb_eq in E. congruence.
  - intros H. destruct (key_eqb a b) eqn:E; [|reflexivity].
    apply key_eqb_eq in E. contradiction.
Qed.

Lemma key_eq_dec (a b : key) : {a = b} + {a <> b}.
Proof.
  destruct (key_eqb a b) eqn:E.
  - left. now apply key_eqb_eq.
  - right. now apply key_eqb_neq.
Qed.

Lemma key_in_In (k : key) (l : list key) : key_in k l = true <-> In k l.
Proof.
  unfold key_in. rewrite existsb_exists. split.
  - intros [x [I E]]. apply key_eqb_eq in E. now subst.
  - intros I. exists k. split; [assumption | apply key_eqb_refl].
Qed.

Lemma key_in_not_In (k : key) (l : list key) :
  key_in k l = false <-> ~ In k l.
Proof.
  rewrite <- key_in_In. destruct (key_in k l); split; congruence.
Qed.

Section Dict.

Context {A : Type}.
Implicit Types (d : list (key * A)) (k : key) (v : A).

Lemma klookup_In d k v : klookup k d = Some v -> In (k, v) d.
Proof.
  induction d as [|[k' v'] d IH]; simpl; [discriminate|].
  destruct (key_eqb k k') eqn:E.
  - apply key_eqb_eq in E. subst. intros [= ->]. now left.
  - intros H. right. now apply IH.
Qed.

Lemma klookup_None d k : klookup k d = None <-> ~ In k (map fst d).
Proof.
  induction d as [|[k' v'] d IH]; simpl; [tauto|].
  destruct (key_eqb k k') eqn:E.
  - apply key_eqb_eq in E. subst. split; [discriminate | tauto].
  - apply key_eqb_neq in E. rewrite IH. split.
    + intros H [F | F]; [congruence | contradiction].
    + tauto.
Qed.

Lemma kmem_In d k : kmem k d = true <-> In k (map fst d).
Proof.
  unfold kmem. destruct (klookup k d) eqn:E.
  - split; [intros _ | reflexivity].
    apply klookup_In in E. now apply (in_map fst) in E.
  - split; [discriminate|]. intros I. now apply klookup_None in E.
Qed.

Lemma klookup_NoDup d k v :
  NoDup (map fst d) -> In (k, v) d -> klookup k d = Some v.
Proof.
  induction d as [|[k' v'] d IH]; simpl; [contradiction|].
  intros N [E | I].
  - injection E as -> ->. now rewrite key_eqb_refl.
  - inversion N as [|? ? NI N']; subst.
    destruct (key_eqb k k') eqn:E.
    + apply key_eqb_eq in E. subst. exfalso. apply NI.
      now apply (in_map fst) in I.
    + now apply IH.
Qed.

Lemma klookup_app d d' k :
  klookup k (d ++ d')
  = match klookup k d with Some v => Some v | None => klookup k d' end.
Proof.
  induction d as [|[k' v'] d IH]; simpl; [reflexivity|].
  now destruct (key_eqb k k').
Qed.

Lemma klookup_kset_same d k v : klookup k (kset d k v) = Some v.
Proof.
  induction d as [|[k' v'] d IH]; simpl.
  - now rewrite key_eqb_refl.
  - destruct (key_eqb k k') eqn:E; simpl; now rewrite E.
Qed.

Lemma klookup_kset_other d k k' v :
  k' <> k -> klookup k' (kset d k v) = klookup k' d.
Proof.
  intros NE. induction d as [|[k0 v0] d IH]; simpl.
  - apply key_eqb_neq in NE. now rewrite NE.
  - destruct (key_eqb k k0) eqn:E; simpl; [|now rewrite IH].
    apply key_eqb_eq in E. subst k0.
    apply key_eqb_neq in NE. now rewrite NE.
Qed.

Lemma keys_kset d k v :
  map fst (kset d k v)
  = if kmem k d then map fst d else map fst d ++ [k].
Proof.
  unfold kmem. induction d as [|[k0 v0] d IH]; simpl; [reflexivity|].
  destruct (key_eqb k k0) eqn:E; simpl; [reflexivity|].
  rewrite IH. now destruct (klookup k d).
Qed.

Lemma kmem_kset d k k' v :
  kmem k' (kset d k v) = kmem k' d || key_eqb k' k.
Proof.
  unfold kmem. destruct (key_eqb k' k) eqn:E.
  - apply key_eqb_eq in E. subst. rewrite klookup_kset_same.
    now rewrite orb_true_r.
  - apply key_eqb_neq in E. rewrite klookup_kset_other by assumption.
    now rewrite orb_false_r.
Qed.

Lemma kmem_app d d' k : kmem k (d ++ d') = kmem k d || kmem k d'.
Proof.
  unfold kmem. rewrite klookup_app. now destruct (klookup k d).
Qed.

Lemma NoDup_kset d k v : NoDup (map fst d) -> NoDup (map fst (kset d k v)).
Proof.
  intros N. rewrite keys_kset. destruct (kmem k d) eqn:E; [assumption|].
  apply NoDup_app; [assumption | repeat constructor; auto | ].
  intros x I [<- | []].
  apply kmem_In in I. congruence.
Qed.

(** With keys that occur once, [kset] changes exactly one entry. *)
Lemma kset_split d k v :
  NoDup (map fst d) ->
  exists d1 d2,
    kset d k v = d1 ++ (k, v) :: d2
    /\ ~ In k (map fst d1) /\ ~ In k (map fst d2).
Proof.
  induction d as [|[k0 v0] d IH]; simpl; intros N.
  - exists [], []. simpl. tauto.
  - inversion N as [|? ? NI N']; subst.
    destruct (key_eqb k k0) eqn:E.
    + apply key_eqb_eq in E. subst k0. exists [], d. simpl. tauto.
    + destruct (IH N') as (d1 & d2 & -> & H1 & H2).
      exists ((k0, v0) :: d1), d2. simpl. repeat split; [|assumption].
      apply key_eqb_neq in E. intros [F | F]; [congruence | contradiction].
Qed.

End Dict.

(** ** The invariant of the graph *)

Lemma graph_ok_empty : graph_ok empty_graph.
Proof. constructor. Qed.

Lemma adj_ok_mono (G G' : DiGraph) (succ : list (key * adj_entry)) :
  (forall k, has_node G k = true -> has_node G' k = true) ->
  adj_ok G succ -> adj_ok G' succ.
Proof.
  intros M [N F]. split; [assumption|].
  eapply Forall_impl; [|exact F]. simpl. intros ka [H1 H2]. auto.
Qed.

Lemma graph_ok_successors (G : DiGraph) (u : key) :
  graph_ok G -> adj_ok G (successors G u).
Proof.
  intros OK. unfold successors. destruct (klookup u G) as [e|] eqn:E.
  - apply klookup_In in E. unfold graph_ok in OK.
    rewrite Forall_forall in OK. exact (OK _ E).
  - split; constructor.
Qed.

Lemma is_edge_node (G : DiGraph) (u v : key) :
  graph_ok G -> is_edge G u v -> has_node G v = true.
Proof.
  intros OK I. destruct (graph_ok_successors G u OK) as [_ F].
  unfold is_edge in I. apply in_map_iff in I as [[k a] [<- I]].
  rewrite Forall_forall in F. now apply (F _ I).
Qed.

Lemma graph_ok_append (G : DiGraph) (k : key) (obj : json)
  (attr : list (string * json)) :
  graph_ok G -> graph_ok (G ++ [(k, mk_node obj attr [])]).
Proof.
  intros OK. unfold graph_ok. apply Forall_app. split.
  - eapply Forall_impl; [|exact OK]. intros ke H.
    eapply adj_ok_mono; [|exact H].
    intros k' H'. unfold has_node in *. rewrite kmem_app. now rewrite H'.
  - repeat constructor.
Qed.

Lemma graph_ok_ensure_node (G : DiGraph) (k : key) (obj : json) :
  graph_ok G -> graph_ok (ensure_node G k obj).
Proof.
  intros OK. unfold ensure_node. destruct (klookup k G); [assumption|].
  now apply graph_ok_append.
Qed.

Lemma has_node_ensure_node (G : DiGraph) (k k' : key) (obj : json) :
  has_node (ensure_node G k obj) k' = has_node G k' || key_eqb k' k.
Proof.
  unfold ensure_node, has_node. destruct (klookup k G) eqn:E.
  - destruct (key_eqb k' k) eqn:F; [|now rewrite orb_false_r].
    apply key_eqb_eq in F. subst. unfold kmem. rewrite E. reflexivity.
  - rewrite kmem_app. unfold kmem at 2. simpl.
    now destruct (key_eqb k' k).
Qed.

(** Replacing the entry of a node by one whose successors are fine keeps
    the graph fine. *)
Lemma graph_ok_kset (G : DiGraph) (k : key) (e : node_entry) :
  graph_ok G -> has_node G k = true ->
  adj_ok G (node_succ e) -> graph_ok (kset G k e).
Proof.
  intros OK HN AE.
  assert (M : forall k', has_node G k' = true ->
                         has_node (kset G k e) k' = true).
  { intros k' H. unfold has_node in *. rewrite kmem_kset. now rewrite H. }
  unfold graph_ok in *. rewrite Forall_forall in *.
  assert (S : forall G0 : DiGraph,
            (forall x, In x G0 -> adj_ok G (node_succ (snd x))) ->
            forall x, In x (kset G0 k e) -> adj_ok G (node_succ (snd x))).
  { induction G0 as [|[k0 e0] G0 IH]; simpl; intros H x I.
    - destruct I as [<- | []]. exact AE.
    - destruct (key_eqb k k0).
      + destruct I as [<- | I]; [exact AE | apply H; now right].
      + destruct I as [<- | I]; [apply H; now left|].
        apply IH; [|assumption]. intros y Iy. apply H. now right. }
  intros x I. eapply adj_ok_mono; [exact M|]. now apply (S G OK).
Qed.

Lemma graph_ok_add_node (G : DiGraph) (n : json)
  (attr : list (string * json)) :
  graph_ok G -> graph_ok (fst (add_node G n attr)).
Proof.
  intros OK. unfold add_node. destruct (hash_key n) as [k|]; [|assumption].
  destruct (klookup k G) as [e|] eqn:E; simpl.
  - apply graph_ok_kset; [assumption | |].
    + unfold has_node, kmem. now rewrite E.
    + simpl. apply klookup_In in E. unfold graph_ok in OK.
      rewrite Forall_forall in OK. exact (OK _ E).
  - now apply graph_ok_append.
Qed.

Lemma graph_ok_add_edge (G : DiGraph) (u v : json)
  (attr : list (string * json)) :
  graph_ok G -> graph_ok (fst (add_edge G u v attr)).
Proof.
  intros OK. unfold add_edge.
  destruct (hash_key u) as [ku|] eqn:Hu; [|assumption].
  pose proof (graph_ok_ensure_node G ku u OK) as OK1.
  destruct (hash_key v) as [kv|] eqn:Hv; [|assumption].
  pose proof (graph_ok_ensure_node _ kv v OK1) as OK2.
  set (G2 := ensure_node (ensure_node G ku u) kv v) in *.
  assert (Nu : has_node G2 ku = true).
  { unfold G2. rewrite !has_node_ensure_node, key_eqb_refl.
    now rewrite orb_true_r. }
  assert (Nv : has_node G2 kv = true).
  { unfold G2. rewrite has_node_ensure_node, key_eqb_refl.
    now rewrite orb_true_r. }
  destruct (klookup ku G2) as [eu|] eqn:E; [|assumption]. simpl.
  apply graph_ok_kset; [assumption | assumption |]. simpl.
  assert (AE : adj_ok G2 (node_succ eu)).
  { apply klookup_In in E. unfold graph_ok in OK2.
    rewrite Forall_forall in OK2. exact (OK2 _ E). }
  destruct AE as [N F]. rewrite Forall_forall in F.
  match goal with |- adj_ok _ (kset _ _ ?x) => set (new := x) end.
  assert (Hnew : hash_key (adj_obj new) = Ok kv).
  { unfold new. simpl.
    destruct (klookup kv (node_succ eu)) as [a0|] eqn:L0; [|assumption].
    apply klookup_In in L0. now apply (F _ L0). }
  clearbody new.
  split; [now apply NoDup_kset|].
  rewrite Forall_forall. intros [k a] I.
  destruct (key_eq_dec k kv) as [-> | NE].
  - assert (L := klookup_kset_same (node_succ eu) kv new).
    rewrite (klookup_NoDup _ _ _ (NoDup_kset _ kv new N) I) in L.
    injection L as ->. simpl. split; assumption.
  - assert (L : klookup k (node_succ eu) = Some a).
    { rewrite <- (klookup_kset_other (node_succ eu) kv k new NE).
      apply klookup_NoDup; [now apply NoDup_kset | exact I]. }
    apply klookup_In in L. exact (F _ L).
Qed.

(** ** Breadth-first search *)

Lemma scan_children_spec (parent : visit)
  (children : list (key * adj_entry)) :
  forall st,
    scan_children parent children st
    = let found := discover (bfs_seen st) children in
      mk_bfs (bfs_seen st ++ map fst found) (bfs_next st ++ found)
             (bfs_out st ++ map (pair parent) found).
Proof.
  induction children as [|[c a] rest IH]; intros [seen next out]; simpl.
  - now rewrite !app_nil_r.
  - destruct (key_in c seen) eqn:E.
    + now rewrite IH.
    + rewrite IH. simpl. now rewrite <- !app_assoc.
Qed.

Lemma scan_parents_spec (G : DiGraph) (parents : list visit) :
  forall st,
    scan_parents G parents st
    = let found := discover_level G (bfs_seen st) parents in
      mk_bfs (bfs_seen st ++ map fst found) (bfs_next st ++ found)
             (bfs_out st ++ level_edges G (bfs_seen st) parents).
Proof.
  induction parents as [|p rest IH]; intros [seen next out]; simpl.
  - now rewrite !app_nil_r.
  - rewrite scan_children_spec, IH. simpl.
    now rewrite map_app, !app_assoc.
Qed.

Lemma bfs_edges_depth2 (G : DiGraph) (start : visit) :
  bfs_edges G start 2 = bfs_depth2 G start.
Proof.
  unfold bfs_edges, bfs_depth2, bfs_start. destruct start as [k o].
  cbn [bfs_levels bfs_next bfs_seen bfs_out scan_parents fst].
  rewrite scan_children_spec. cbn [bfs_seen bfs_next bfs_out app].
  destruct (discover [k] (successors G k)) as [|c first] eqn:D.
  - reflexivity.
  - cbn [bfs_levels bfs_next bfs_seen bfs_out].
    rewrite scan_parents_spec. reflexivity.
Qed.

Lemma discover_sound (children : list (key * adj_entry)) :
  forall seen v,
    In v (map fst (discover seen children)) ->
    In v (map fst children) /\ ~ In v seen.
Proof.
  induction children as [|[c a] rest IH]; intros seen v; simpl; [tauto|].
  destruct (key_in c seen) eqn:E.
  - intros I. destruct (IH _ _ I). tauto.
  - simpl. intros [<- | I].
    + split; [now left | now apply key_in_not_In].
    + destruct (IH _ _ I) as [H1 H2]. split; [now right|].
      intros F. apply H2. apply in_or_app. now left.
Qed.

Lemma discover_complete (children : list (key * adj_entry)) :
  forall seen v,
    In v (map fst children) ->
    In v (seen ++ map fst (discover seen children)).
Proof.
  induction children as [|[c a] rest IH]; intros seen v; simpl; [tauto|].
  intros [<- | I].
  - destruct (key_in c seen) eqn:E.
    + apply in_or_app. left. now apply key_in_In.
    + apply in_or_app. right. now left.
  - destruct (key_in c seen) eqn:E; [now apply IH|].
    specialize (IH (seen ++ [c]) v I). rewrite <- app_assoc in IH.
    exact IH.
Qed.

Lemma discover_NoDup (children : list (key * adj_entry)) :
  forall seen,
    NoDup seen -> NoDup (seen ++ map fst (discover seen children)).
Proof.
  induction children as [|[c a] rest IH]; intros seen N; simpl.
  - now rewrite app_nil_r.
  - destruct (key_in c seen) eqn:E; [now apply IH|].
    simpl. change (c :: map fst (discover (seen ++ [c]) rest))
      with ([c] ++ map fst (discover (seen ++ [c]) rest)).
    rewrite app_assoc. apply IH.
    apply NoDup_app; [assumption | repeat constructor; auto |].
    intros x I [<- | []]. apply key_in_not_In in E. contradiction.
Qed.

Lemma level_sound (G : DiGraph) (parents : list visit) :
  forall seen v,
    In v (map fst (discover_level G seen parents)) ->
    exists p, In p parents /\ is_edge G (fst p) v.
Proof.
  induction parents as [|p rest IH]; intros seen v; simpl; [tauto|].
  rewrite map_app, in_app_iff. intros [I | I].
  - exists p. split; [now left|]. now apply discover_sound in I.
  - destruct (IH _ _ I) as (q & Iq & E). exists q. split; [now right|].
    assumption.
Qed.

Lemma level_complete (G : DiGraph) (parents : list visit) :
  forall seen p v,
    In p parents -> is_edge G (fst p) v ->
    In v (seen ++ map fst (discover_level G seen parents)).
Proof.
  induction parents as [|p0 rest IH]; intros seen p v; simpl; [tauto|].
  rewrite map_app, app_assoc. intros [-> | I] E.
  - apply in_or_app. left. now apply discover_complete.
  - now apply IH with p.
Qed.

Lemma level_NoDup (G : DiGraph) (parents : list visit) :
  forall seen,
    NoDup seen -> NoDup (seen ++ map fst (discover_level G seen parents)).
Proof.
  induction parents as [|p rest IH]; intros seen N; simpl.
  - now rewrite app_nil_r.
  - rewrite map_app, app_assoc. apply IH. now apply discover_NoDup.
Qed.

Lemma level_edges_sound (G : DiGraph) (parents : list visit) :
  forall seen u v,
    In (u, v) (level_edges G seen parents) ->
    In u parents /\ is_edge G (fst u) (fst v).
Proof.
  induction parents as [|p rest IH]; intros seen u v; simpl; [tauto|].
  rewrite in_app_iff. intros [I | I].
  - apply in_map_iff in I as (c & Q & Ic). injection Q as <- <-.
    split; [now left|].
    apply (in_map fst) in Ic. now apply discover_sound in Ic.
  - destruct (IH _ _ _ I) as [H1 H2]. split; [now right | assumption].
Qed.

(** Every edge of the bounded traversal is an edge of the graph, and
    leaves the start node or one of its successors. *)
Lemma bfs_depth2_sound (G : DiGraph) (start u v : visit) :
  In (u, v) (bfs_depth2 G start) ->
  is_edge G (fst u) (fst v)
  /\ (u = start \/ is_edge G (fst start) (fst u)).
Proof.
  unfold bfs_depth2. rewrite in_app_iff. intros [I | I].
  - apply in_map_iff in I as (c & Q & Ic). injection Q as <- <-.
    split; [|now left].
    apply (in_map fst) in Ic. now apply discover_sound in Ic.
  - apply level_edges_sound in I as [Iu E]. split; [assumption|].
    right. apply (in_map fst) in Iu. now apply discover_sound in Iu.
Qed.

Lemma bfs_inv_start (G : DiGraph) (s : key) (o : json) :
  has_node G s = true -> bfs_inv G s (bfs_start (s, o)).
Proof.
  intros HN. unfold bfs_inv, bfs_start. simpl. repeat split.
  - repeat constructor. auto.
  - now left.
  - destruct H as [<- | []]. apply rt_refl.
  - destruct H as [<- | []]. assumption.
  - apply incl_refl.
  - intros u v I NI. contradiction.
Qed.

(** One level of the search keeps the invariant, and what it adds to
    [seen] is what it queues. *)
Lemma bfs_inv_level (G : DiGraph) (s : key) (st : bfs_state) :
  graph_ok G -> bfs_inv G s st ->
  let st' := scan_parents G (bfs_next st)
               (mk_bfs (bfs_seen st) [] (bfs_out st)) in
  bfs_inv G s st'
  /\ bfs_seen st' = bfs_seen st ++ map fst (bfs_next st').
Proof.
  intros OK (N & Src & Reach & Next & Closed).
  rewrite scan_parents_spec. cbn [bfs_seen bfs_next bfs_out app].
  split; [|reflexivity].
  unfold bfs_inv. cbn [bfs_seen bfs_next bfs_out].
  set (D := discover_level G (bfs_seen st) (bfs_next st)).
  repeat split.
  - now apply level_NoDup.
  - apply in_or_app. now left.
  - apply in_app_or in H as [I | I]; [now apply Reach|].
    apply level_sound in I as (p & Ip & E).
    apply rt_trans with (fst p); [|now apply rt_step].
    apply Reach, Next. now apply in_map.
  - apply in_app_or in H as [I | I]; [now apply Reach|].
    apply level_sound in I as (p & Ip & E).
    now apply is_edge_node with (fst p).
  - intros k I. apply in_or_app. now right.
  - intros u v I NI E.
    apply in_app_or in I as [I | I]; [|contradiction].
    destruct (in_dec key_eq_dec u (map fst (bfs_next st))) as [Q | Q].
    + apply in_map_iff in Q as (p & <- & Ip).
      now apply level_complete with p.
    + apply in_or_app. left. now apply Closed with u.
Qed.

Lemma bfs_levels_progress (G : DiGraph) (s : key) :
  graph_ok G ->
  forall d st,
    bfs_inv G s st ->
    bfs_inv G s (bfs_levels G d st)
    /\ (bfs_next (bfs_levels G d st) = []
        \/ length (bfs_seen st) + d <= length (bfs_seen (bfs_levels G d st))).
Proof.
  intros OK. induction d as [|d IH]; intros st Inv.
  - simpl. split; [assumption|]. right. lia.
  - cbn [bfs_levels]. destruct (bfs_next st) as [|p rest] eqn:E.
    + split; [assumption|]. now left.
    + rewrite <- E.
      destruct (bfs_inv_level G s st OK Inv) as [Inv' Seen'].
      set (st' := scan_parents G (bfs_next st)
                    (mk_bfs (bfs_seen st) [] (bfs_out st))) in *.
      destruct (IH st' Inv') as [InvF [Z | L]].
      * split; [assumption|]. now left.
      * split; [assumption|].
        destruct (bfs_next st') as [|q rest'] eqn:E'.
        -- left. destruct d; simpl; now rewrite E'.
        -- right. rewrite Seen', length_app in L. simpl in L. lia.
Qed.

Lemma bfs_seen_bound (G : DiGraph) (s : key) (st : bfs_state) :
  bfs_inv G s st -> length (bfs_seen st) <= length G.
Proof.
  intros (N & _ & Reach & _).
  rewrite <- (length_map fst G). apply NoDup_incl_length; [assumption|].
  intros k I. apply kmem_In. now apply Reach.
Qed.

(** The forward search finds exactly the nodes a path leads to. *)
Lemma bfs_reach (G : DiGraph) (s : key) (o : json) (t : key) :
  graph_ok G -> has_node G s = true ->
  key_in t (bfs_seen (bfs_levels G (number_of_nodes G) (bfs_start (s, o))))
  = true
  <-> path G s t.
Proof.
  intros OK HN.
  destruct (bfs_levels_progress G s OK (number_of_nodes G) _
              (bfs_inv_start G s o HN)) as [Inv Done].
  set (st := bfs_levels G (number_of_nodes G) (bfs_start (s, o))) in *.
  rewrite key_in_In. split.
  - intros I. destruct Inv as (_ & _ & Reach & _). now apply Reach.
  - assert (E : bfs_next st = []).
    { destruct Done as [E | L]; [assumption|].
      pose proof (bfs_seen_bound G s st Inv) as B.
      unfold number_of_nodes, bfs_start in L. simpl in L. lia. }
    destruct Inv as (_ & Src & _ & _ & Closed). rewrite E in Closed.
    intros P. apply clos_rt_rtn1 in P.
    induction P as [|y z Eyz P IH]; [assumption|].
    apply Closed with y; auto.
Qed.

End NetworkXFacts.

(* ================================================================== *)
(** * Properties of the diagnosis engine *)
(* ================================================================== *)

Module LogicFacts.

Import NetworkX Logic Spec PyFacts NetworkXFacts.

(** ** Loading keeps the graph well formed *)

Lemma graph_ok_load_nodes (nodes : list json) :
  forall G, graph_ok G -> graph_ok (fst (load_nodes G nodes)).
Proof.
  induction nodes as [|n rest IH]; intros G OK; simpl; [assumption|].
  destruct (getitem n "id") as [i|]; simpl; [|assumption].
  destruct (get n "type") as [t|]; simpl; [|assumption].
  destruct (get n "description") as [d|]; simpl; [|assumption].
  pose proof (graph_ok_add_node G i [("type", t); ("description", d)] OK) as H.
  destruct (add_node G i [("type", t); ("description", d)]) as [G' [u|e]];
    simpl in *; auto.
Qed.

Lemma graph_ok_load_edges (edges : list json) :
  forall G, graph_ok G -> graph_ok (fst (load_edges G edges)).
Proof.
  induction edges as [|x rest IH]; intros G OK; simpl; [assumption|].
  destruct (getitem x "source") as [a|]; simpl; [|assumption].
  destruct (getitem x "target") as [b|]; simpl; [|assumption].
  destruct (get x "relation") as [r|]; simpl; [|assumption].
  pose proof (graph_ok_add_edge G a b [("relation", r)] OK) as H.
  destruct (add_edge G a b [("relation", r)]) as [G' [u|e]];
    simpl in *; auto.
Qed.

Lemma graph_ok_load_document (G : DiGraph) (data : json) :
  graph_ok G -> graph_ok (fst (load_document G data)).
Proof.
  intros OK. unfold load_document.
  destruct (read_header data); [|assumption].
  destruct (n <- get_default data "nodes" (JArr []) ;; py_iter n)
    as [nodes|]; [|constructor].
  pose proof (graph_ok_load_nodes nodes (clear G) graph_ok_empty) as H1.
  destruct (load_nodes (clear G) nodes) as [G1 [u|e]]; simpl in *;
    [|assumption].
  destruct (e <- get_default data "edges" (JArr []) ;; py_iter e)
    as [edges|]; [|assumption].
  now apply graph_ok_load_edges.
Qed.

(** Every graph the engine ever holds is well formed: the one [__init__]
    builds, and the one any reload leaves. *)
Lemma graph_ok_load (fs : Store.file_state) (G : DiGraph) :
  graph_ok G -> graph_ok (_load_knowledge_graph fs G).
Proof.
  intros OK. unfold _load_knowledge_graph.
  destruct (negb (Store.exists_ fs)); [assumption|].
  destruct (Store.read_json fs); [|assumption].
  now apply graph_ok_load_document.
Qed.

Lemma graph_ok_init (fs : Store.file_state) : graph_ok (init fs).
Proof. apply graph_ok_load, graph_ok_empty. Qed.

Lemma path_node (G : DiGraph) (s t : key) :
  graph_ok G -> has_node G s = true -> path G s t -> has_node G t = true.
Proof.
  intros OK HN P. apply clos_rt_rtn1 in P.
  induction P as [|y z E P IH]; [assumption|].
  now apply is_edge_node with y.
Qed.

(** ** Missing and unreadable stores *)



(** ** Loading a document that has one more edge *)






(** ** Unknown states *)

(** C7.  For a node id that is not in the graph, [diagnose] returns the
    unknown-state result: its message quotes the id and
    [activates_safe_mode] is false.  ([diagnose] is a total function: no
    call raises.) *)
Theorem diagnose_unknown_state
  (py_repr : json -> string) (G : DiGraph) (n : string) :
  has_node G (KStr n) = false ->
  diagnose py_repr G n
  = UnknownState
      ("State '" ++ n ++ "' is not mapped in the Knowledge Graph.") false
  /\ activates_safe_mode (diagnose py_repr G n) = false.
Proof.
  intros H. unfold diagnose. rewrite H. simpl. split; reflexivity.
Qed.

Lemma diagnose_unknown_state_witness :
  has_node (init (Store.FileJson chain_doc)) (KStr "nonexistent_state") = false
  /\ diagnose (fun _ => "") (init (Store.FileJson chain_doc))
       "nonexistent_state"
     = UnknownState
         "State 'nonexistent_state' is not mapped in the Knowledge Graph."
         false.
Proof.
  split; [reflexivity|].
  apply (diagnose_unknown_state (fun _ => "")
           (init (Store.FileJson chain_doc)) "nonexistent_state").
  reflexivity.
Defined.

(** ** Safe mode *)

(** C3.  For a node [s] of the graph, [activates_safe_mode] is true
    exactly when a directed path (possibly empty, as for [nx.has_path])
    leads from [s] to the node [safe_mode]; when [safe_mode] is no node of
    the graph the flag is false.  ([diagnose] is total: nothing is
    raised.) *)
Theorem safe_mode_iff_path
  (py_repr : json -> string) (G : DiGraph) (s : string) :
  graph_ok G ->
  has_node G (KStr s) = true ->
  (activates_safe_mode (diagnose py_repr G s) = true
   <-> path G (KStr s) (KStr "safe_mode"))
  /\ (has_node G (KStr "safe_mode") = false ->
      activates_safe_mode (diagnose py_repr G s) = false).
Proof.
  intros OK HN. unfold diagnose. rewrite HN. simpl.
  unfold reaches_safe_mode, has_path. rewrite HN. simpl.
  destruct (has_node G (KStr "safe_mode")) eqn:SM.
  - split; [|discriminate]. now apply bfs_reach.
  - split; [|reflexivity]. split; [discriminate|].
    intros P. apply (path_node G _ _ OK HN) in P. congruence.
Qed.

Lemma safe_mode_iff_path_witness :
  (activates_safe_mode
     (diagnose (fun _ => "") (init (Store.FileJson chain_doc)) "low_rest")
   = true
   <-> path (init (Store.FileJson chain_doc)) (KStr "low_rest")
         (KStr "safe_mode"))
  /\ (has_node (init (Store.FileJson chain_doc)) (KStr "safe_mode") = false ->
      activates_safe_mode
        (diagnose (fun _ => "") (init (Store.FileJson chain_doc)) "low_rest")
      = false).
Proof.
  apply (safe_mode_iff_path (fun _ => "")
           (init (Store.FileJson chain_doc)) "low_rest").
  - vm_compute.
    repeat first [ apply Forall_nil | apply Forall_cons | split
                 | reflexivity | apply NoDup_nil | apply NoDup_cons
                 | (intros H; simpl in H; intuition discriminate) ].
  - reflexivity.
Defined.

(** ** The reasoning trace *)

(** C6.  For a node [s] of the graph, the trace [diagnose] returns is the
    list of the edges of the breadth-first traversal from [s] bounded to
    depth 2, in the order the traversal meets them, each rendered as
    "A --[relation]--> B"; on the chain
    low_rest -> executive_fatigue -> safe_mode it is the two lines of the
    scenario. *)
Theorem reasoning_trace_is_bfs_depth2
  (py_repr : json -> string) (G : DiGraph) (s : string) :
  has_node G (KStr s) = true ->
  reasoning_path (diagnose py_repr G s) = depth2_trace py_repr G s
  /\ reasoning_path
       (diagnose py_repr (init (Store.FileJson chain_doc)) "low_rest")
     = ["low_rest --[TRIGGERS]--> executive_fatigue";
        "executive_fatigue --[TRIGGERS]--> safe_mode"].
Proof.
  intros HN. split; [|reflexivity].
  unfold diagnose. rewrite HN. simpl.
  unfold _explain_reasoning, depth2_trace.
  rewrite bfs_edges_depth2. apply map_ext. now intros [[ku u] [kv v]].
Qed.

Lemma reasoning_trace_is_bfs_depth2_witness :
  has_node (init (Store.FileJson chain_doc)) (KStr "executive_fatigue") = true
  /\ reasoning_path
       (diagnose (fun _ => "") (init (Store.FileJson chain_doc))
          "executive_fatigue")
     = depth2_trace (fun _ => "") (init (Store.FileJson chain_doc))
         "executive_fatigue".
Proof.
  split; [reflexivity|].
  apply (reasoning_trace_is_bfs_depth2 (fun _ => "")
           (init (Store.FileJson chain_doc)) "executive_fatigue").
  reflexivity.
Defined.

End LogicFacts.

(* ================================================================== *)
(** * From a feedback command to the next diagnosis *)
(* ================================================================== *)

Module EndToEnd.

Import NetworkX Logic Spec PyFacts NetworkXFacts UpdaterFacts LogicFacts.






(** The engine keeps one edge per ordered pair: once
    low_rest --WORSENS--> executive_fatigue has been added to the chain,
    the older TRIGGERS edge of the same pair, still in the document, is no
    longer what [diagnose] reports. *)
Example older_relation_displaced (py_repr : json -> string) :
  let graph :=
    after_action chain_doc
      (JObj [("action", JStr "add_edge");
             ("edge", edge "low_rest" "executive_fatigue" "WORSENS")]) in
  doc_edges graph
  = [edge "low_rest" "executive_fatigue" "TRIGGERS";
     edge "executive_fatigue" "safe_mode" "TRIGGERS";
     edge "low_rest" "executive_fatigue" "WORSENS"]
  /\ predicted_risks
       (diagnose py_repr (init (Store.FileJson graph)) "low_rest")
     = [(JStr "executive_fatigue", JStr "WORSENS")].
Proof. split; reflexivity. Qed.

(** The scenario of the specification: deleting executive_fatigue from
    the chain removes both edges; low_rest then has no successor and does
    not reach safe_mode. *)
Example scenario_delete_node (py_repr : json -> string) :
  let graph :=
    after_action chain_doc
      (JObj [("action", JStr "delete_node");
             ("node", node "executive_fatigue")]) in
  graph = JObj [("nodes", JArr [node "low_rest"; node "safe_mode"]);
                ("edges", JArr [])]
  /\ diagnose py_repr (init (Store.FileJson graph)) "low_rest"
     = Diagnosis "low_rest" [] false [].
Proof. split; reflexivity. Qed.

End EndToEnd.

(* ================================================================== *)
(** * Properties of the auto-linker *)
(* ================================================================== *)

Module AutoLinkerFacts.

Import AutoLinker Spec PyFacts UpdaterFacts.

(** ** The classifier *)

Section Classifier.

Variable json_loads : string -> option json.

Lemma caught_parse_output (o : json) :
  caught (parse_output json_loads o)
  = match o with
    | JStr text =>
        match json_loads (clean_agent_output text) with
        | Some inner => relation_field inner
        | None => None
        end
    | _ => None
    end.
Proof.
  destruct o as [| | |text| |]; try reflexivity. simpl.
  destruct (json_loads (clean_agent_output text)) as [inner|];
    [|reflexivity].
  destruct inner as [| | |s|l|d]; simpl; try reflexivity.
  - now destruct (String.index 0 "relation" s).
  - now destruct (py_in (JStr "relation") l).
  - now destruct (lookup "relation" d).
Qed.

Lemma caught_output (v : json) :
  (exists d, v = JObj d /\ lookup "output" d <> None) ->
  caught (o <- getitem v "output" ;; parse_output json_loads o)
  = output_relation json_loads v.
Proof.
  intros (d & -> & L). simpl.
  destruct (lookup "output" d) as [o|]; [|contradiction]. simpl.
  rewrite caught_parse_output. now destruct o.
Qed.

(** What [ask_agent_relation] returns, for every outcome of the call. *)
Lemma ask_agent_relation_spec (resp : response) :
  ask_agent_relation json_loads resp
  = match resp with
    | Body data =>
        match accepted_relation json_loads data with
        | Some r => r
        | None => UNKNOWN_RELATION
        end
    | _ => UNKNOWN_RELATION
    end.
Proof.
  destruct resp as [| |data]; try reflexivity.
  unfold ask_agent_relation, accepted_relation.
  destruct data as [| | |s|l|d]; try reflexivity.
  - destruct l as [|first rest]; [reflexivity|]. simpl.
    destruct first as [| | |s|l|d]; simpl; try reflexivity.
    + now destruct (String.index 0 "output" s).
    + now destruct (py_in (JStr "output") l).
    + destruct (lookup "output" d) as [o|] eqn:L; [|reflexivity]. simpl.
      rewrite caught_parse_output.
      destruct o as [| | |text| |]; try reflexivity.
      destruct (json_loads (clean_agent_output text)) as [inner|];
        [|reflexivity].
      now destruct (relation_field inner).
  - simpl. destruct (lookup "relation" d) as [r|] eqn:R; [reflexivity|].
    simpl. destruct (lookup "output" d) as [o|] eqn:L; [|reflexivity].
    simpl. rewrite caught_parse_output.
    destruct o as [| | |text| |]; try reflexivity.
    destruct (json_loads (clean_agent_output text)) as [inner|];
      [|reflexivity].
    now destruct (relation_field inner).
Qed.

Lemma ask_agent_relation_failed (resp : response) :
  classifier_failed json_loads resp ->
  ask_agent_relation json_loads resp = UNKNOWN_RELATION.
Proof.
  intros F. rewrite ask_agent_relation_spec.
  destruct resp as [| |data]; try reflexivity.
  simpl in F. now rewrite F.
Qed.

End Classifier.

(** ** Looking an edge up *)

Lemma py_any_app_true (f : json -> result bool) (l l' : list json) :
  py_any f l = Ok true -> py_any f (l ++ l') = Ok true.
Proof.
  induction l as [|x l IH]; simpl; [discriminate|].
  destruct (f x) as [[|]|]; simpl; auto; discriminate.
Qed.

Lemma edge_exists_total (es : list json) (s t r : json) :
  forallb isinstance_dict es = true ->
  exists b, edge_exists es s t r = Ok b.
Proof.
  unfold edge_exists. induction es as [|e es IH]; simpl; [now eexists|].
  intros H. apply andb_true_iff in H as [D H].
  destruct e as [| | | | |fields]; try discriminate.
  rewrite !get_dict. unfold and_then. simpl.
  destruct (py_eq (get_or_none (JObj fields) "source") s); [|now apply IH].
  destruct (py_eq (get_or_none (JObj fields) "target") t); [|now apply IH].
  destruct (py_eq (get_or_none (JObj fields) "relation") r); [|now apply IH].
  now eexists.
Qed.

Lemma edge_exists_snoc (es : list json) (s t r : string) :
  edge_exists es (JStr s) (JStr t) (JStr r) = Ok false ->
  edge_exists (es ++ [new_edge (JStr s) (JStr t) (JStr r)])
    (JStr s) (JStr t) (JStr r) = Ok true.
Proof.
  unfold edge_exists. intros H. rewrite (py_any_snoc _ _ _ H).
  simpl. now rewrite !String.eqb_refl.
Qed.

Lemma py_any_snoc_true (f : json -> result bool) (l : list json) (x : json) :
  py_any f (l ++ [x]) = Ok true -> py_any f l = Ok true \/ f x = Ok true.
Proof.
  induction l as [|y l IH]; simpl.
  - destruct (f x) as [[|]|]; simpl; try discriminate. now right.
  - destruct (f y) as [[|]|]; simpl; try discriminate; auto.
Qed.

Lemma edge_exists_snoc_true (es : list json) (e s t r : json) :
  edge_exists (es ++ [e]) s t r = Ok true ->
  edge_exists es s t r = Ok true \/ edge_exists [e] s t r = Ok true.
Proof.
  unfold edge_exists. intros H.
  apply py_any_snoc_true in H as [H | H]; [now left|].
  right. simpl. now rewrite H.
Qed.

(** A new edge that matches a triple of strings is the new edge of that
    triple. *)
Lemma new_edge_matches (a b c : json) (s t r : string) :
  edge_exists [new_edge a b c] (JStr s) (JStr t) (JStr r) = Ok true ->
  new_edge a b c = new_edge (JStr s) (JStr t) (JStr r).
Proof.
  unfold edge_exists, new_edge, and_then. simpl.
  destruct (py_eq a (JStr s)) eqn:Ea; simpl; [|discriminate].
  destruct (py_eq b (JStr t)) eqn:Eb; simpl; [|discriminate].
  destruct (py_eq c (JStr r)) eqn:Ec; simpl; [|discriminate].
  apply py_eq_str_r in Ea, Eb, Ec. now subst.
Qed.

(** ** The loop over the pairs *)

Section Loop.

Variables (similar : nat -> nat -> bool) (relation_of : nat -> nat -> json).
Variable ids : list json.

Lemma link_loop_spec (todo : list (nat * nat)) :
  forall es,
    forallb isinstance_dict es = true ->
    exists added,
      link_loop similar relation_of ids (JArr es) todo
      = (JArr (es ++ added), Ok tt)
      /\ forallb isinstance_dict (es ++ added) = true
      /\ Forall (linked similar relation_of ids todo) added
      /\ forall i j s t r,
           In (i, j) todo -> similar i j = true ->
           nth i ids JNull = JStr s -> nth j ids JNull = JStr t ->
           relation_of i j = JStr r ->
           edge_exists (es ++ added) (JStr s) (JStr t) (JStr r) = Ok true
           /\ (edge_exists es (JStr s) (JStr t) (JStr r) = Ok true
               \/ In (new_edge (JStr s) (JStr t) (JStr r)) added).
Proof.
  induction todo as [|[i j] todo IH]; intros es D.
  - exists []. rewrite app_nil_r. simpl.
    refine (conj eq_refl (conj D (conj (Forall_nil _) _))).
    intros ? ? ? ? ? [].
  - simpl. destruct (similar i j) eqn:Sim.
    + destruct (edge_exists_total es (nth i ids JNull) (nth j ids JNull)
                  (relation_of i j) D) as [b Eb].
      rewrite Eb. destruct b.
      * destruct (IH es D) as (added & -> & D' & L & X).
        exists added. refine (conj eq_refl (conj D' (conj _ _))).
        -- eapply Forall_impl; [|exact L].
           intros e (i' & j' & I' & S' & ->). exists i', j'.
           repeat split; auto. now right.
        -- intros i' j' s t r [Q | I'] S' Hs Ht Hr; [|eauto].
           injection Q as <- <-. rewrite Hs, Ht, Hr in Eb.
           split; [|now left]. apply py_any_app_true. exact Eb.
      * set (new := new_edge (nth i ids JNull) (nth j ids JNull)
                      (relation_of i j)).
        assert (D1 : forallb isinstance_dict (es ++ [new]) = true).
        { rewrite forallb_app, D. reflexivity. }
        destruct (IH (es ++ [new]) D1) as (added & -> & D' & L & X).
        exists (new :: added).
        change (es ++ new :: added) with (es ++ [new] ++ added).
        rewrite app_assoc. refine (conj eq_refl (conj D' (conj _ _))).
        -- constructor.
           ++ exists i, j. repeat split; auto. now left.
           ++ eapply Forall_impl; [|exact L].
              intros e (i' & j' & I' & S' & ->). exists i', j'.
              repeat split; auto. now right.
        -- intros i' j' s t r [Q | I'] S' Hs Ht Hr.
           ++ injection Q as <- <-. unfold new in *.
              rewrite Hs, Ht, Hr in *. split.
              ** apply py_any_app_true. now apply edge_exists_snoc.
              ** right. now left.
           ++ destruct (X i' j' s t r I' S' Hs Ht Hr) as [X1 X2].
              split; [assumption|].
              destruct X2 as [X2 | X2]; [|right; now right].
              apply edge_exists_snoc_true in X2 as [X2 | X2];
                [now left|].
              right. left. unfold new.
              now apply new_edge_matches in X2.
    + destruct (IH es D) as (added & -> & D' & L & X).
      exists added. refine (conj eq_refl (conj D' (conj _ _))).
      * eapply Forall_impl; [|exact L].
        intros e (i' & j' & I' & S' & ->). exists i', j'.
        repeat split; auto. now right.
      * intros i' j' s t r [Q | I'] S' Hs Ht Hr; [|eauto].
        injection Q as <- <-. congruence.
Qed.

(** When every similar pair already has its edge, the loop appends
    nothing. *)
Lemma link_loop_fixed (todo : list (nat * nat)) (es : list json) :
  (forall i j, In (i, j) todo -> similar i j = true ->
     edge_exists es (nth i ids JNull) (nth j ids JNull) (relation_of i j)
     = Ok true) ->
  link_loop similar relation_of ids (JArr es) todo = (JArr es, Ok tt).
Proof.
  induction todo as [|[i j] todo IH]; intros H; simpl; [reflexivity|].
  destruct (similar i j) eqn:Sim.
  - rewrite (H i j (or_introl eq_refl) Sim). apply IH.
    intros i' j' I'. apply H. now right.
  - apply IH. intros i' j' I'. apply H. now right.
Qed.

End Loop.

Lemma in_pairs (n i j : nat) : i < j -> j < n -> In (i, j) (pairs n).
Proof.
  intros Hij Hjn. unfold pairs. apply in_flat_map. exists i. split.
  - apply in_seq. lia.
  - apply in_map. apply in_seq. lia.
Qed.

(** ** A whole pass *)

Section Pass.

Variable py_repr : json -> string.

Lemma py_map_total {B} (f : json -> result B) (l : list json) :
  forallb (fun x => is_ok (f x)) l = true -> exists r, py_map f l = Ok r.
Proof.
  induction l as [|x l IH]; simpl; [now eexists|].
  intros H. apply andb_true_iff in H as [Hx Hl].
  destruct (f x); [|discriminate]. destruct (IH Hl) as [r ->].
  simpl. now eexists.
Qed.

Lemma py_map_id_of (ns : list json) :
  forallb has_id ns = true ->
  py_map (fun n => getitem n "id") ns = Ok (map id_of ns).
Proof.
  induction ns as [|n ns IH]; simpl; [reflexivity|].
  intros H. apply andb_true_iff in H as [Hn Hl].
  unfold has_id in Hn. unfold id_of at 1.
  destruct (getitem n "id"); [|discriminate]. simpl.
  now rewrite (IH Hl).
Qed.

(** A node whose text can be built has a string as id. *)
Lemma built_text_id (n : json) :
  is_ok (build_text_representation py_repr n) = true ->
  has_id n = true ->
  exists s, id_of n = JStr s.
Proof.
  unfold build_text_representation, has_id, id_of, get_default.
  destruct n as [| | | | |fields]; simpl; try discriminate.
  destruct (lookup "id" fields) as [i|]; [|discriminate]. simpl.
  destruct (lookup "description" fields) as [ds|]; simpl;
    (destruct (lookup "attributes" fields) as [at_|]; simpl;
     [destruct (items at_) as [kvs|]; simpl; [|discriminate] |]);
    destruct i; simpl; try discriminate; eauto.
Qed.

Lemma linkable_inv (graph : json) :
  linkable py_repr graph = true ->
  exists d,
    graph = JObj d
    /\ get_default graph "nodes" (JArr []) = Ok (JArr (doc_nodes graph))
    /\ (lookup "edges" d = None \/
         lookup "edges" d = Some (JArr (doc_edges graph)))
    /\ forallb (fun n => is_ok (build_text_representation py_repr n)
                          && has_id n) (doc_nodes graph) = true
    /\ forallb isinstance_dict (doc_edges graph) = true.
Proof.
  unfold linkable, doc_nodes, doc_edges.
  destruct graph as [| | | | |d]; try discriminate. simpl.
  intros H. apply andb_true_iff in H as [Hn He]. exists d.
  destruct (lookup "nodes" d) as [[| | | |ns|]|]; try discriminate;
    destruct (lookup "edges" d) as [[| | | |es|]|]; try discriminate;
    repeat split; auto.
Qed.

Lemma dict_set_twice {A} (d : list (string * A)) (k : string) (v w : A) :
  dict_set (dict_set d k v) k w = dict_set d k w.
Proof.
  induction d as [|[k' v'] d IH]; simpl.
  - now rewrite String.eqb_refl.
  - destruct (String.eqb k k') eqn:E; simpl; rewrite E; [reflexivity|].
    now rewrite IH.
Qed.

Lemma dict_set_present {A} (d : list (string * A)) (k : string) (v : A) :
  lookup k d = Some v -> dict_set d k v = d.
Proof.
  induction d as [|[k' v'] d IH]; simpl; [discriminate|].
  destruct (String.eqb k k') eqn:E.
  - now intros [= ->].
  - intros H. now rewrite IH.
Qed.

(** What a pass does to a document the linker can process: it returns,
    keeps the nodes, and appends edges of similar pairs; afterwards every
    similar pair whose ids and relation are strings has its edge. *)
Lemma link_pass_spec (similar : nat -> nat -> bool)
  (relation_of : nat -> nat -> json) (graph : json) :
  linkable py_repr graph = true ->
  exists d' added,
    link_pass py_repr similar relation_of graph
    = (JObj (dict_set d' "edges" (JArr (doc_edges graph ++ added))), Ok tt)
    /\ linkable py_repr
         (JObj (dict_set d' "edges" (JArr (doc_edges graph ++ added)))) = true
    /\ doc_nodes (JObj d') = doc_nodes graph
    /\ Forall (linked similar relation_of (ids_of graph)
                 (pairs (length (doc_nodes graph)))) added
    /\ forallb isinstance_dict (doc_edges graph ++ added) = true
    /\ forall i j s t r,
         In (i, j) (pairs (length (doc_nodes graph))) ->
         similar i j = true ->
         nth i (ids_of graph) JNull = JStr s ->
         nth j (ids_of graph) JNull = JStr t ->
         relation_of i j = JStr r ->
         edge_exists (doc_edges graph ++ added) (JStr s) (JStr t) (JStr r)
         = Ok true
         /\ (edge_exists (doc_edges graph) (JStr s) (JStr t) (JStr r)
             = Ok true
             \/ In (new_edge (JStr s) (JStr t) (JStr r)) added).
Proof.
  intros L. destruct (linkable_inv graph L) as (d & -> & N & E & Fn & Fe).
  unfold link_pass. rewrite N.
  set (d1 := match lookup "edges" d with
             | Some _ => d
             | None => dict_set d "edges" (JArr [])
             end).
  assert (G1 : match lookup "edges" d with
               | Some _ => JObj d
               | None => JObj (dict_set d "edges" (JArr []))
               end = JObj d1).
  { unfold d1. now destruct (lookup "edges" d). }
  rewrite G1.
  assert (E1 : getitem (JObj d1) "edges" = Ok (JArr (doc_edges (JObj d)))).
  { unfold d1. simpl. destruct E as [E | E]; rewrite E.
    - rewrite lookup_dict_set_same. unfold doc_edges. simpl. now rewrite E.
    - now rewrite E. }
  rewrite E1. cbn [bind py_iter].
  assert (Ft : forallb (fun n => is_ok (build_text_representation py_repr n))
                 (doc_nodes (JObj d)) = true).
  { rewrite forallb_forall in *. intros n I. specialize (Fn _ I).
    now apply andb_true_iff in Fn as [Fn _]. }
  assert (Fi : forallb has_id (doc_nodes (JObj d)) = true).
  { rewrite forallb_forall in *. intros n I. specialize (Fn _ I).
    now apply andb_true_iff in Fn as [_ Fn]. }
  destruct (py_map_total _ _ Ft) as [texts ->]. cbn [bind].
  rewrite (py_map_id_of _ Fi). cbn [bind].
  destruct (link_loop_spec similar relation_of (ids_of (JObj d))
              (pairs (length (doc_nodes (JObj d)))) _ Fe)
    as (added & LL & D' & Lk & X).
  unfold ids_of in LL. rewrite LL. simpl.
  exists d1, added.
  refine (conj eq_refl (conj _ (conj _ (conj Lk (conj D' X))))).
  - unfold linkable in *.
    rewrite lookup_dict_set_other by discriminate.
    rewrite lookup_dict_set_same, D', andb_true_r.
    apply andb_true_iff in L as [L _]. unfold d1.
    destruct (lookup "edges" d); [assumption|].
    now rewrite lookup_dict_set_other by discriminate.
  - unfold d1, doc_nodes. simpl. destruct (lookup "edges" d); [reflexivity|].
    now rewrite lookup_dict_set_other by discriminate.
Qed.

Lemma ids_of_str (graph : json) (i : nat) :
  linkable py_repr graph = true ->
  i < length (doc_nodes graph) ->
  exists s, nth i (ids_of graph) JNull = JStr s.
Proof.
  intros L Hi. destruct (linkable_inv graph L) as (d & _ & _ & _ & Fn & _).
  unfold ids_of.
  replace (nth i (map id_of (doc_nodes graph)) JNull)
    with (id_of (nth i (doc_nodes graph) JNull))
    by (symmetry; apply (map_nth id_of (doc_nodes graph) JNull i)).
  rewrite forallb_forall in Fn.
  specialize (Fn _ (nth_In (doc_nodes graph) JNull Hi)).
  apply andb_true_iff in Fn as [F1 F2]. now apply built_text_id.
Qed.

(** C5.  In the semantic pass over a document the linker can process
    (the similarity test of every pair being given): a classifier call
    that raises, or whose reply yields no relation through any of the
    three accepted shapes, resolves to "UNKNOWN_RELATION"; whatever the
    classifier does, the pass returns and only appends edges; and for
    every pair at or above the threshold whose classifier call failed, the
    edge with the sentinel relation is there after the pass: it was there
    before, or the pass created it. *)
Theorem classifier_failure_falls_back
  (json_loads : string -> option json) (similar : nat -> nat -> bool)
  (agent : nat -> nat -> response) (graph : json) :
  linkable py_repr graph = true ->
  (forall resp,
     classifier_failed json_loads resp ->
     ask_agent_relation json_loads resp = UNKNOWN_RELATION)
  /\ snd (auto_link_embeddings py_repr json_loads similar agent graph) = Ok tt
  /\ (exists added,
        doc_edges
          (fst (auto_link_embeddings py_repr json_loads similar agent graph))
        = doc_edges graph ++ added)
  /\ forall i j,
       i < j -> j < length (doc_nodes graph) ->
       similar i j = true ->
       classifier_failed json_loads (agent i j) ->
       edge_exists
         (doc_edges
            (fst (auto_link_embeddings py_repr json_loads similar agent graph)))
         (nth i (ids_of graph) JNull) (nth j (ids_of graph) JNull)
         UNKNOWN_RELATION = Ok true
       /\ (edge_exists (doc_edges graph)
             (nth i (ids_of graph) JNull) (nth j (ids_of graph) JNull)
             UNKNOWN_RELATION = Ok true
           \/ In (new_edge (nth i (ids_of graph) JNull)
                    (nth j (ids_of graph) JNull) UNKNOWN_RELATION)
                (doc_edges
                   (fst (auto_link_embeddings py_repr json_loads similar
                           agent graph)))).
Proof.
  intros L. split; [exact (ask_agent_relation_failed json_loads)|].
  unfold auto_link_embeddings.
  destruct (link_pass_spec similar
              (fun i j => ask_agent_relation json_loads (agent i j)) graph L)
    as (d' & added & -> & _ & _ & _ & _ & X).
  cbn [fst snd]. rewrite doc_edges_set_edges.
  split; [reflexivity|]. split; [now exists added|].
  intros i j Hij Hj Sim F.
  destruct (ids_of_str graph i L) as [s Hs]; [lia|].
  destruct (ids_of_str graph j L Hj) as [t Ht].
  rewrite Hs, Ht.
  destruct (X i j s t "UNKNOWN_RELATION"
              (in_pairs _ i j Hij Hj) Sim Hs Ht
              (ask_agent_relation_failed json_loads _ F)) as [X1 X2].
  split; [exact X1|].
  destruct X2 as [X2 | X2]; [now left|].
  right. apply in_or_app. now right.
Qed.

(** A pass over a document in which every similar pair already has its
    edge returns the document as it is. *)
Lemma link_pass_fixed (similar : nat -> nat -> bool)
  (relation_of : nat -> nat -> json) (d : list (string * json))
  (es : list json) :
  linkable py_repr (JObj d) = true ->
  lookup "edges" d = Some (JArr es) ->
  (forall i j,
     In (i, j) (pairs (length (doc_nodes (JObj d)))) -> similar i j = true ->
     edge_exists es (nth i (ids_of (JObj d)) JNull)
       (nth j (ids_of (JObj d)) JNull) (relation_of i j) = Ok true) ->
  link_pass py_repr similar relation_of (JObj d) = (JObj d, Ok tt).
Proof.
  intros L E H. destruct (linkable_inv _ L) as (d0 & Q & N & _ & Fn & _).
  injection Q as <-. unfold link_pass. rewrite N, E.
  assert (E1 : getitem (JObj d) "edges" = Ok (JArr es))
    by (simpl; now rewrite E).
  rewrite E1. cbn [bind py_iter].
  assert (Ft : forallb (fun n => is_ok (build_text_representation py_repr n))
                 (doc_nodes (JObj d)) = true).
  { rewrite forallb_forall in *. intros n I. specialize (Fn _ I).
    now apply andb_true_iff in Fn as [Fn _]. }
  assert (Fi : forallb has_id (doc_nodes (JObj d)) = true).
  { rewrite forallb_forall in *. intros n I. specialize (Fn _ I).
    now apply andb_true_iff in Fn as [_ Fn]. }
  destruct (py_map_total _ _ Ft) as [texts ->]. cbn [bind].
  rewrite (py_map_id_of _ Fi). cbn [bind].
  unfold ids_of in H. rewrite (link_loop_fixed _ _ _ _ _ H). simpl.
  now rewrite (dict_set_present d "edges" (JArr es) E).
Qed.

(** The lexical pass run a second time, with the same similarity matrix,
    appends nothing: no (source, target, relation) triple is added
    twice. *)
Lemma auto_link_tfidf_twice (similar : nat -> nat -> bool) (graph : json) :
  linkable py_repr graph = true ->
  auto_link_tfidf py_repr similar
    (fst (auto_link_tfidf py_repr similar graph))
  = (fst (auto_link_tfidf py_repr similar graph), Ok tt).
Proof.
  intros L. unfold auto_link_tfidf.
  destruct (link_pass_spec similar (fun _ _ => JStr "RELATED_TFIDF") graph L)
    as (d' & added & -> & L' & Dn & _ & _ & X).
  cbn [fst].
  set (d2 := dict_set d' "edges" (JArr (doc_edges graph ++ added))) in *.
  assert (Dn2 : doc_nodes (JObj d2) = doc_nodes graph).
  { unfold d2. now rewrite doc_nodes_set_edges. }
  apply link_pass_fixed with (doc_edges graph ++ added); [assumption | |].
  - unfold d2. apply lookup_dict_set_same.
  - unfold ids_of. rewrite Dn2. fold (ids_of graph).
    intros i j I Sim.
    assert (B : i < j /\ j < length (doc_nodes graph)).
    { unfold pairs in I. apply in_flat_map in I as (i' & Ii & Ij).
      apply in_map_iff in Ij as (j' & Q & Ij). injection Q as <- <-.
      apply in_seq in Ii, Ij. lia. }
    destruct (ids_of_str graph i L) as [s Hs]; [lia|].
    destruct (ids_of_str graph j L) as [t Ht]; [lia|].
    rewrite Hs, Ht.
    exact (proj1 (X i j s t "RELATED_TFIDF" I Sim Hs Ht eq_refl)).
Qed.

Lemma linkable_pair_doc : linkable (fun _ => "") pair_doc = true.
Proof. reflexivity. Qed.

(** The text the lexical pass vectorizes starts with the id: two nodes
    with the same description do not have the same text. *)
Example same_description_other_text :
  build_text_representation py_repr
    (JObj [("id", JStr "low_rest"); ("description", JStr "")])
  = Ok "low_rest "
  /\ build_text_representation py_repr
       (JObj [("id", JStr "safe_mode"); ("description", JStr "")])
     = Ok "safe_mode ".
Proof. split; reflexivity. Qed.

End Pass.

Lemma classifier_failure_falls_back_witness :
  linkable (fun _ => "") pair_doc = true
  /\ In (new_edge (JStr "low_rest") (JStr "executive_fatigue")
           UNKNOWN_RELATION)
       (doc_edges
          (fst (auto_link_embeddings (fun _ => "") (fun _ => None)
                  (fun _ _ => true) (fun _ _ => PostRaised) pair_doc))).
Proof.
  split; [reflexivity|].
  destruct (classifier_failure_falls_back (fun _ => "") (fun _ => None)
              (fun _ _ => true) (fun _ _ => PostRaised) pair_doc eq_refl)
    as (_ & _ & _ & H).
  destruct (H 0 1) as [_ [E | I]]; [lia | simpl; lia | reflexivity | exact I
                                   | discriminate E | exact I].
Defined.

End AutoLinkerFacts.
